(** * The log handler of faas-provider: request parsing and streaming

    A shallow embedding of package [logs] (the [Request] and [Message]
    types, [getValue], [parseRequest] and the handler built by
    [NewLogHandlerFunc]) together with the properties of the parser and of
    the streaming loop.

    Conventions of the embedding:
    - a Go [string] is a [string] (a sequence of bytes), an [int] is a [Z]
      (64-bit, the bounds are written out where the code can reach them),
      a pointer that is only tested for [nil] and read is an [option];
    - [url.Values] is a finite map from keys to the list of their values, in
      the order of the query string;
    - [strconv.Atoi] and [strconv.ParseBool] are embedded after the Go
      standard library; [time.Parse], the JSON decoder of a POST body, the
      [Requestor] and [httputils.WriteError] are parameters of the
      development;
    - the handler's effects on its response writer and on the requestor are
      collected in a trace; log output is left out. *)

From Stdlib Require Import ZArith Ascii String List Bool Lia.
From stdpp Require Import base option list strings gmap.

Local Open Scope string_scope.
Local Open Scope Z_scope.

(** ** Errors *)

(** [strconv.ErrSyntax] and [strconv.ErrRange]. *)
Inductive NumErr : Type :=
| ErrSyntax
| ErrRange.

(** The [error] values that reach [parseRequest]: [*strconv.NumError],
    [*time.ParseError] and whatever the JSON decoder reports. *)
Inductive error : Type :=
| NumError (Func Num : string) (Err : NumErr)
| ParseError (Layout Value : string)
| DecodeError (Msg : string).

(** ** package time *)

(** [time.Time] with the three words of its representation; [time.Time{}]
    is the zero value of each. *)
Record Time : Type := mkTime {
  wall : Z;
  ext : Z;
  loc : option string
}.

Definition zeroTime : Time := {| wall := 0; ext := 0; loc := None |}.

Definition RFC3339 : string := "2006-01-02T15:04:05Z07:00".

(** ** The data model (the types of package logs) *)

Record Request : Type := mkRequest {
  Name : string;
  Instance : string;
  Since : option Time;
  Limit : Z;
  Follow : bool;
  Pattern : option string;
  Invert : bool
}.

Record Message : Type := mkMessage {
  MName : string;
  MInstance : string;
  Timestamp : Time;
  Text : string
}.

(** The zero value of [Request], what a named result holds on entry. *)
Definition zeroRequest : Request :=
  {| Name := ""; Instance := ""; Since := None; Limit := 0;
     Follow := false; Pattern := None; Invert := false |}.

(** Field assignments [logRequest.F = v]. *)
Definition setName (v : string) (q : Request) : Request :=
  {| Name := v; Instance := Instance q; Since := Since q; Limit := Limit q;
     Follow := Follow q; Pattern := Pattern q; Invert := Invert q |}.

Definition setInstance (v : string) (q : Request) : Request :=
  {| Name := Name q; Instance := v; Since := Since q; Limit := Limit q;
     Follow := Follow q; Pattern := Pattern q; Invert := Invert q |}.

Definition setSince (v : option Time) (q : Request) : Request :=
  {| Name := Name q; Instance := Instance q; Since := v; Limit := Limit q;
     Follow := Follow q; Pattern := Pattern q; Invert := Invert q |}.

Definition setLimit (v : Z) (q : Request) : Request :=
  {| Name := Name q; Instance := Instance q; Since := Since q; Limit := v;
     Follow := Follow q; Pattern := Pattern q; Invert := Invert q |}.

Definition setFollow (v : bool) (q : Request) : Request :=
  {| Name := Name q; Instance := Instance q; Since := Since q; Limit := Limit q;
     Follow := v; Pattern := Pattern q; Invert := Invert q |}.

Definition setPattern (v : option string) (q : Request) : Request :=
  {| Name := Name q; Instance := Instance q; Since := Since q; Limit := Limit q;
     Follow := Follow q; Pattern := v; Invert := Invert q |}.

Definition setInvert (v : bool) (q : Request) : Request :=
  {| Name := Name q; Instance := Instance q; Since := Since q; Limit := Limit q;
     Follow := Follow q; Pattern := Pattern q; Invert := v |}.

(** ** package strconv *)

Definition syntaxError (fn str : string) : error := NumError fn str ErrSyntax.
Definition rangeError (fn str : string) : error := NumError fn str ErrRange.

(** [strconv.ParseBool]. *)
Definition ParseBool (str : string) : bool * option error :=
  if bool_decide (str ∈ ["1"; "t"; "T"; "true"; "TRUE"; "True"]) then (true, None)
  else if bool_decide (str ∈ ["0"; "f"; "F"; "false"; "FALSE"; "False"]) then (false, None)
  else (false, Some (syntaxError "ParseBool" str)).

(** [int] and [uint64] on a 64-bit platform. *)
Definition intSize : Z := 64.
Definition maxUint64 : Z := 2 ^ 64 - 1.
Definition maxInt : Z := 2 ^ 63 - 1.
Definition minInt : Z := - 2 ^ 63.

(** The byte [c] as a decimal digit: [c - '0'] when that is at most 9. *)
Definition digit (c : ascii) : option Z :=
  let ch := (Z.of_N (N_of_ascii c) - 48) mod 256 in
  if 9 <? ch then None else Some ch.

(** The fast path of [Atoi]: [n = n*10 + int(ch)] over the bytes. *)
Fixpoint atoiLoop (n : Z) (s : string) : option Z :=
  match s with
  | EmptyString => Some n
  | String c rest =>
      match digit c with
      | None => None
      | Some ch => atoiLoop (n * 10 + ch) rest
      end
  end.

(** The loop of [ParseUint] at base 10 and 64 bits: [cutoff] is the
    smallest number whose tenfold overflows. *)
Definition cutoff10 : Z := maxUint64 / 10 + 1.

Fixpoint parseUintLoop (s0 : string) (n : Z) (s : string) : Z * option error :=
  match s with
  | EmptyString => (n, None)
  | String c rest =>
      match digit c with
      | None => (0, Some (syntaxError "ParseUint" s0))
      | Some d =>
          if cutoff10 <=? n then (maxUint64, Some (rangeError "ParseUint" s0))
          else
            let n10 := n * 10 in
            let n1 := (n10 + d) mod 2 ^ 64 in
            if (n1 <? n10) || (maxUint64 <? n1)
            then (maxUint64, Some (rangeError "ParseUint" s0))
            else parseUintLoop s0 n1 rest
      end
  end.

Definition ParseUint (s : string) : Z * option error :=
  if bool_decide (s = "") then (0, Some (syntaxError "ParseUint" s))
  else parseUintLoop s 0 s.

Definition isRange (e : option error) : bool :=
  match e with
  | Some (NumError _ _ ErrRange) => true
  | _ => false
  end.

(** [strconv.ParseInt(s, 10, 0)]. *)
Definition ParseInt (s : string) : Z * option error :=
  match s with
  | EmptyString => (0, Some (syntaxError "ParseInt" s))
  | String c rest =>
      let s0 := s in
      let neg := bool_decide (c = "-"%char) in
      let s := if bool_decide (c = "+"%char) || neg then rest else s in
      let '(un, err) := ParseUint s in
      if bool_decide (err ≠ None) && negb (isRange err)
      then (0, Some (syntaxError "ParseInt" s0))
      else
        let cutoff := 2 ^ (intSize - 1) in
        if negb neg && (cutoff <=? un) then (cutoff - 1, Some (rangeError "ParseInt" s0))
        else if neg && (cutoff <? un) then (- cutoff, Some (rangeError "ParseInt" s0))
        else (if neg then - un else un, None)
  end.

(** [strconv.Atoi]: the fast path for short strings, [ParseInt] otherwise,
    with the error renamed after [Atoi]. *)
Definition Atoi (s : string) : Z * option error :=
  let sLen := Z.of_nat (String.length s) in
  if (0 <? sLen) && (sLen <? 19) then
    match s with
    | EmptyString => (0, Some (syntaxError "Atoi" s))
    | String c rest =>
        let s0 := s in
        let s := if bool_decide (c = "-"%char) || bool_decide (c = "+"%char)
                 then rest else s in
        if Z.of_nat (String.length s) <? 1 then (0, Some (syntaxError "Atoi" s0))
        else
          match atoiLoop 0 s with
          | None => (0, Some (syntaxError "Atoi" s0))
          | Some n => (if bool_decide (c = "-"%char) then - n else n, None)
          end
    end
  else
    let '(i64, err) := ParseInt s in
    (i64, match err with
          | Some (NumError _ num e) => Some (NumError "Atoi" num e)
          | other => other
          end).

(** ** package net/url and net/http *)

(** [url.Values]: [v[key]] is the nil slice for a key that is not there. *)
Definition index (v : gmap string (list string)) (key : string) : list string :=
  default [] (v !! key).

(** [url.ParseQuery] stores each decoded pair with
    [m[key] = append(m[key], value)], from left to right. *)
Definition appendValue (m : gmap string (list string)) (p : string * string)
    : gmap string (list string) :=
  <[p.1 := (index m p.1 ++ [p.2])%list]> m.

Definition ParseQuery (pairs : list (string * string)) : gmap string (list string) :=
  fold_left appendValue pairs ∅.

(** The part of [*http.Request] the handler reads: the method, the decoded
    [key=value] pairs of [URL.RawQuery] in the order they occur, and the
    body. *)
Record HttpRequest : Type := mkHttpRequest {
  Method : string;
  RawQuery : list (string * string);
  Body : string
}.

Definition MethodGet : string := "GET".
Definition MethodPost : string := "POST".

(** [r.URL.Query()]. *)
Definition URLQuery (r : HttpRequest) : gmap string (list string) :=
  ParseQuery (RawQuery r).

(** ** handler.go: getValue *)

(** [getValue] returns the last value of the key, the empty string when
    there is none. *)
Definition getValue (queryValues : gmap string (list string)) (name : string) : string :=
  let values := index queryValues name in
  if (length values =? 0)%nat then ""
  else default "" (values !! (length values - 1)%nat).

(** ** handler.go: parseRequest *)

(** What [parseRequest] takes from outside the package:
    [time.Parse(time.RFC3339, value)], as the instant it accepts [value] as
    ([None] when it rejects it), and [json.NewDecoder(body).Decode] into a
    zero [Request]. *)
Class Decoders : Type := {
  parseRFC3339 : string -> option Time;
  decodeJSON : string -> Request * option error
}.

(** [time.Parse(time.RFC3339, value)]: every failing path of [time.Parse]
    returns [Time{}] with a [*ParseError]. *)
Definition timeParse `{Decoders} (value : string) : Time * option error :=
  match parseRFC3339 value with
  | Some t => (t, None)
  | None => (zeroTime, Some (ParseError RFC3339 value))
  end.

(** A step of the parser works on the named result [logRequest]; a step
    that fails returns what it has built so far with its error, and the
    steps after it do not run. *)
Definition step : Type := Request -> Request * option error.

Definition andThen (f g : step) : step :=
  λ q, match f q with
       | (q', None) => g q'
       | (q', Some e) => (q', Some e)
       end.

Notation "f >>> g" := (andThen f g) (at level 65, right associativity).

Definition assign (set : Request -> Request) : step := λ q, (set q, None).

(** [limitStr := getValue(query, "limit")] and the conversion with its
    early return; [Limit] is assigned whatever [Atoi] returns. *)
Definition parseLimit (query : gmap string (list string)) : step :=
  λ q, let limitStr := getValue query "limit" in
       if bool_decide (limitStr ≠ "") then
         let '(n, err) := Atoi limitStr in (setLimit n q, err)
       else (q, None).

(** [since, err := time.Parse(...)]: the pointer is stored before the
    error is looked at. *)
Definition parseSince `{Decoders} (query : gmap string (list string)) : step :=
  λ q, let sinceStr := getValue query "since" in
       if bool_decide (sinceStr ≠ "") then
         let '(since, err) := timeParse sinceStr in (setSince (Some since) q, err)
       else (q, None).

(** [patterns := query["pattern"]], read without [getValue]. *)
Definition parsePattern (query : gmap string (list string)) : step :=
  λ q, let patterns := index query "pattern" in
       if (0 <? length patterns)%nat
       then (setPattern (patterns !! (length patterns - 1)%nat) q, None)
       else (q, None).

Definition parseGet `{Decoders} (query : gmap string (list string)) : step :=
  assign (setName (getValue query "name")) >>>
  assign (setInstance (getValue query "instance")) >>>
  parseLimit query >>>
  assign (setFollow (ParseBool (getValue query "follow")).1) >>>
  assign (setInvert (ParseBool (getValue query "invert")).1) >>>
  parseSince query >>>
  parsePattern query.

Definition parseRequest `{Decoders} (r : HttpRequest) : Request * option error :=
  if bool_decide (Method r = MethodGet) then parseGet (URLQuery r) zeroRequest
  else if bool_decide (Method r = MethodPost) then decodeJSON (Body r)
  else (zeroRequest, None).

(** ** handler.go: the handler *)

(** A stream of messages as the channel delivers it: the messages it
    yields, and whether the producer then closes the channel or leaves it
    open without sending again. *)
Inductive StreamEnd : Type :=
| Closed
| Open.

Record Stream : Type := mkStream {
  messages : list Message;
  ending : StreamEnd
}.

(** The [Requestor] interface. [Query] may return a nil channel. *)
Class Requestor : Type := {
  Filter : Request -> Message -> bool;
  Query : Request -> option Stream * option error
}.

(** The calls the handler makes on its [http.ResponseWriter], on the
    flusher and on the JSON encoder wrapped around the writer; [Encode]
    records whether the call returned a nil error. *)
Inductive WriterCall : Type :=
| HeaderSet (key value : string)
| WriteHeader (statusCode : Z)
| Write (data : string)
| Flush
| Encode (msg : Message) (ok : bool).

Inductive Effect : Type :=
| OnWriter (c : WriterCall)
| QueryCall (req : Request)
| CancelQuery
| CloseBody.

(** [httputils.WriteError(w, statusCode, msg)] is given the writer only:
    it is the calls it makes on it. *)
Class HttpUtils : Type := {
  WriteError : Z -> string -> list WriterCall
}.

(** The dynamic type of the response writer: which of the two interfaces
    it implements. *)
Record ResponseWriter : Type := mkResponseWriter {
  isCloseNotifier : bool;
  isFlusher : bool
}.

(** What the surroundings do during one turn of the loop: whether the
    [select] takes the close notification, and whether the two [Encode]
    calls the turn may make fail. *)
Record Tick : Type := mkTick {
  closeNotify : bool;
  encodeErr : bool;
  fallbackErr : bool
}.

(** The case the [select] takes; [Blocked] when neither channel will ever
    be ready. *)
Inductive Selected : Type :=
| CloseNotified
| Received (msg : Message)
| ChannelClosed
| Blocked.

Definition select (t : Tick) (front : option Message) (e : StreamEnd) : Selected :=
  if closeNotify t then CloseNotified
  else match front, e with
       | Some msg, _ => Received msg
       | None, Closed => ChannelClosed
       | None, Open => Blocked
       end.

(** How a request ends. [Waiting] is the handler that never returns. *)
Inductive Exit : Type :=
| Unsupported
| ParseFailed
| QueryFailed
| NilStream
| ClientGone
| EndOfStream
| SerializeFault
| LimitReached
| Waiting.

Inductive Next : Type :=
| Continue (sent : Z)
| Stop (e : Exit).

Definition StatusOK : Z := 200.
Definition StatusNotFound : Z := 404.
Definition StatusUnprocessableEntity : Z := 422.
Definition StatusInternalServerError : Z := 500.

(** [Message{Text: "failed to serialize log message"}]. *)
Definition fallbackMessage : Message :=
  {| MName := ""; MInstance := ""; Timestamp := zeroTime;
     Text := "failed to serialize log message" |}.

(** One turn of the loop, from the case the [select] took. The count
    stays below the limit, so [sent++] does not wrap. *)
Definition iteration `{Requestor} (logRequest : Request) (t : Tick) (sent : Z)
    (sel : Selected) : list WriterCall * Next :=
  match sel with
  | CloseNotified => ([], Stop ClientGone)
  | ChannelClosed => ([], Stop EndOfStream)
  | Blocked => ([], Stop Waiting)
  | Received msg =>
      if negb (Filter logRequest msg) then ([], Continue sent)
      else if encodeErr t then
        ([Encode msg false; Encode fallbackMessage (negb (fallbackErr t))],
         Stop SerializeFault)
      else if 0 <? Limit logRequest then
        let sent := sent + 1 in
        if Limit logRequest <=? sent then ([Encode msg true; Flush], Stop LimitReached)
        else ([Encode msg true; Flush], Continue sent)
      else ([Encode msg true; Flush], Continue sent)
  end.

(** The loop [for messages != nil { select { ... } }]: turn [i] runs under
    [env i]; each turn returns or takes one message off the stream. *)
Fixpoint serve `{Requestor} (logRequest : Request) (env : nat -> Tick) (i : nat)
    (sent : Z) (msgs : list Message) (e : StreamEnd) : list WriterCall * Exit :=
  match msgs with
  | [] =>
      let '(calls, next) := iteration logRequest (env i) sent (select (env i) None e) in
      (calls, match next with Stop x => x | Continue _ => Waiting end)
  | msg :: rest =>
      let '(calls, next) :=
        iteration logRequest (env i) sent (select (env i) (Some msg) e) in
      match next with
      | Stop x => (calls, x)
      | Continue sent' =>
          let '(calls', x) := serve logRequest env (S i) sent' rest e in
          ((calls ++ calls')%list, x)
      end
  end.

(** [http.NotFound(w, r)]. *)
Definition NotFound : list WriterCall :=
  [HeaderSet "Content-Type" "text/plain; charset=utf-8";
   HeaderSet "X-Content-Type-Options" "nosniff";
   WriteHeader StatusNotFound;
   Write ("404 page not found" ++ String (ascii_of_nat 10) "")].

(** The deferred calls of a handler that got as far as the loop: they run
    when it returns, [cancelQuery] before [r.Body.Close], and never while
    it waits. *)
Definition deferred (x : Exit) : list Effect :=
  match x with
  | Waiting => []
  | _ => [CancelQuery; CloseBody]
  end.

(** The handler [NewLogHandlerFunc(requestor)] returns, run on [w] and [r]
    in the surroundings [env]: the trace of its effects and how it ends.
    The deferred calls run last, [cancelQuery] before [r.Body.Close] (the
    request of a server always has a body). *)
Definition NewLogHandlerFunc `{Decoders} `{HttpUtils} `{Requestor}
    (env : nat -> Tick) (w : ResponseWriter) (r : HttpRequest) : list Effect * Exit :=
  if negb (isCloseNotifier w) then (map OnWriter NotFound ++ [CloseBody], Unsupported)%list
  else if negb (isFlusher w) then (map OnWriter NotFound ++ [CloseBody], Unsupported)%list
  else
    match parseRequest r with
    | (_, Some _) =>
        (map OnWriter
           (WriteHeader StatusUnprocessableEntity
              :: WriteError StatusUnprocessableEntity "could not parse the log request")
           ++ [CloseBody], ParseFailed)%list
    | (logRequest, None) =>
        match Query logRequest with
        | (_, Some _) =>
            (QueryCall logRequest
               :: map OnWriter
                    (WriteError StatusInternalServerError "function log request failed")
               ++ [CancelQuery; CloseBody], QueryFailed)%list
        | (stream, None) =>
            let headers :=
              [HeaderSet "Transfer-Encoding" "chunked";
               HeaderSet "Content-Type" "application/x-ndjson";
               WriteHeader StatusOK;
               Flush] in
            let '(calls, x) :=
              match stream with
              | None => ([], NilStream)
              | Some s => serve logRequest env 0 0 (messages s) (ending s)
              end in
            (QueryCall logRequest :: map OnWriter (headers ++ calls)
               ++ deferred x, x)%list
        end
    end.

(** The status line the client gets: the first [WriteHeader] decides it,
    and a write or a flush before any [WriteHeader] commits [200]. *)
Fixpoint committedStatus (calls : list WriterCall) : option Z :=
  match calls with
  | [] => None
  | HeaderSet _ _ :: rest => committedStatus rest
  | WriteHeader c :: _ => Some c
  | Write _ :: _ => Some StatusOK
  | Flush :: _ => Some StatusOK
  | Encode _ true :: _ => Some StatusOK
  | Encode _ false :: rest => committedStatus rest
  end.

Definition writerCalls (effects : list Effect) : list WriterCall :=
  omap (λ e, match e with OnWriter c => Some c | _ => None end) effects.

Definition isQueryCall (e : Effect) : bool :=
  match e with QueryCall _ => true | _ => false end.

(** ** Vocabulary of the statements *)

(** The values a key is given in the query string, in order. *)
Definition occurrences (key : string) (pairs : list (string * string)) : list string :=
  map snd (List.filter (λ p, bool_decide (p.1 = key)) pairs).

(** The value of the last occurrence of a key, if it occurs at all. *)
Definition lastValue (pairs : list (string * string)) (key : string) : option string :=
  last (occurrences key pairs).

(** The query parameters [parseRequest] reads. *)
Definition parameterKeys : list string :=
  ["name"; "instance"; "limit"; "follow"; "invert"; "since"; "pattern"].

(** The limit step lets the parser through: the value is absent or empty,
    or [Atoi] accepts it. *)
Definition limitPasses (r : HttpRequest) : Prop :=
  let limitStr := getValue (URLQuery r) "limit" in
  limitStr = "" ∨ (Atoi limitStr).2 = None.

(** The since value is absent or empty, or a timestamp [time.Parse]
    accepts. *)
Definition sincePasses `{Decoders} (r : HttpRequest) : Prop :=
  let sinceStr := getValue (URLQuery r) "since" in
  sinceStr = "" ∨ is_Some (parseRFC3339 sinceStr).


(** The messages of a stream the filter keeps, and the calls that write a
    list of messages: one [Encode] and one [Flush] each. *)
Definition kept `{Requestor} (logRequest : Request) (msgs : list Message) : list Message :=
  List.filter (Filter logRequest) msgs.

Definition written (msgs : list Message) : list WriterCall :=
  flat_map (λ m, [Encode m true; Flush]) msgs.

(** The surroundings are quiet during the turns [i .. i + n - 1]: the
    client stays connected and the encoder reports no error. *)
Definition quiet (env : nat -> Tick) (i n : nat) : Prop :=
  ∀ j, (j < n)%nat → closeNotify (env (i + j)%nat) = false ∧ encodeErr (env (i + j)%nat) = false.

(** The count the loop keeps after [n] more written messages: it moves
    only under a positive limit. *)
Definition counted (req : Request) (sent : Z) (n : nat) : Z :=
  if 0 <? Limit req then sent + Z.of_nat n else sent.

(** How a run without a limit may end after the first [n] messages of the
    stream [msgs] have been taken, in the turns from [i] on, with the calls
    it has made. *)
Definition endsAfter `{Requestor} (req : Request) (env : nat -> Tick) (i : nat)
    (msgs : list Message) (e : StreamEnd) (n : nat)
    (calls : list WriterCall) (x : Exit) : Prop :=
  match x with
  | ClientGone =>
      closeNotify (env (i + n)%nat) = true
      ∧ calls = written (kept req (take n msgs))
  | EndOfStream =>
      n = length msgs ∧ e = Closed ∧ calls = written (kept req msgs)
  | Waiting =>
      n = length msgs ∧ e = Open ∧ calls = written (kept req msgs)
  | SerializeFault =>
      ∃ m, msgs !! n = Some m ∧ Filter req m = true
           ∧ encodeErr (env (i + n)%nat) = true
           ∧ calls = (written (kept req (take n msgs))
                        ++ [Encode m false;
                            Encode fallbackMessage (negb (fallbackErr (env (i + n)%nat)))])%list
  | _ => False
  end.

(** ** Sample surroundings, for the closed examples *)

Module Sample.

(** 2019-02-16T09:10:06Z, in seconds since January 1 of year 1. *)
Definition sinceTime : Time := {| wall := 0; ext := 63685905006; loc := None |}.

(** A decoder that knows one timestamp and one body. *)
Definition decoders : Decoders :=
  {| parseRFC3339 := λ value,
       if bool_decide (value = "2019-02-16T09:10:06+00:00") then Some sinceTime else None;
     decodeJSON := λ body,
       if bool_decide (body = "{}") then (zeroRequest, None)
       else (zeroRequest, Some (DecodeError "invalid character")) |}.

Definition httpUtils : HttpUtils :=
  {| WriteError := λ statusCode msg, [WriteHeader statusCode; Write msg] |}.

Definition message (text : string) : Message :=
  {| MName := "fn"; MInstance := "fn-1"; Timestamp := sinceTime; Text := text |}.

(** A requestor that keeps the messages whose text differs from the
    request's pattern, and answers every query with the same three
    messages. *)
Definition requestor : Requestor :=
  {| Filter := λ q m, negb (bool_decide (Pattern q = Some (Text m)));
     Query := λ q, (Some (mkStream [message "a"; message "b"; message "c"] Closed), None) |}.

Definition get (pairs : list (string * string)) : HttpRequest :=
  {| Method := MethodGet; RawQuery := pairs; Body := "" |}.

Definition limited (k : Z) : Request := setLimit k zeroRequest.

(** Nothing happens around the loop. *)
Definition still : nat -> Tick :=
  λ _, {| closeNotify := false; encodeErr := false; fallbackErr := false |}.

(** The client goes away before the first message is taken. *)
Definition gone : nat -> Tick :=
  λ _, {| closeNotify := true; encodeErr := false; fallbackErr := false |}.

(** The encoder fails from turn [n] on. *)
Definition failing (n : nat) : nat -> Tick :=
  λ i, {| closeNotify := false; encodeErr := bool_decide (n ≤ i)%nat; fallbackErr := false |}.

Definition streaming : ResponseWriter :=
  {| isCloseNotifier := true; isFlusher := true |}.

(** A recorder that can flush but not notify. *)
Definition recorder : ResponseWriter :=
  {| isCloseNotifier := false; isFlusher := true |}.

End Sample.

(** ** Vocabulary of the further statements *)

(** The request with another query string. *)
Definition withQuery (pairs : list (string * string)) (r : HttpRequest) : HttpRequest :=
  {| Method := Method r; RawQuery := pairs; Body := Body r |}.

(** The pairs of a query string under the keys the parser reads, and the
    pairs under any key but one. *)
Definition readPairs (pairs : list (string * string)) : list (string * string) :=
  List.filter (λ p, bool_decide (p.1 ∈ parameterKeys)) pairs.

Definition withoutKey (key : string) (pairs : list (string * string))
    : list (string * string) :=
  List.filter (λ p, negb (bool_decide (p.1 = key))) pairs.

(** The spellings [ParseBool] takes for true. *)
Definition trueSpellings : list string := ["1"; "t"; "T"; "true"; "TRUE"; "True"].

(** The writer is both a close notifier and a flusher. *)
Definition canStream (w : ResponseWriter) : bool := isCloseNotifier w && isFlusher w.

(** The requests the trace shows [Query] was called with. *)
Definition queries (effects : list Effect) : list Request :=
  omap (λ e, match e with QueryCall q => Some q | _ => None end) effects.

(** The number of times the trace shows the deferred [cancelQuery] ran. *)
Definition cancels (effects : list Effect) : nat :=
  length (List.filter (λ e, match e with CancelQuery => true | _ => false end) effects).

(** The number of flushes in a trace of the loop: one for each message of
    the stream that was written. *)
Definition flushes (calls : list WriterCall) : nat :=
  length (List.filter (λ c, match c with Flush => true | _ => false end) calls).

(** The four calls that open the stream. *)
Definition streamHeaders : list WriterCall :=
  [HeaderSet "Transfer-Encoding" "chunked";
   HeaderSet "Content-Type" "application/x-ndjson";
   WriteHeader StatusOK;
   Flush].

(** How a run of the loop, under any limit, may end after the first [n]
    messages of [msgs] have been taken in the turns from [i] on: the calls
    it has made, and where the count stands against a positive limit it
    started below. *)
Definition stopsAfter `{Requestor} (req : Request) (env : nat -> Tick) (i : nat) (sent : Z)
    (msgs : list Message) (e : StreamEnd) (n : nat)
    (calls : list WriterCall) (x : Exit) : Prop :=
  let taken := kept req (take n msgs) in
  let below := 0 < Limit req → sent < Limit req →
               sent + Z.of_nat (length taken) < Limit req in
  match x with
  | ClientGone =>
      closeNotify (env (i + n)%nat) = true ∧ calls = written taken ∧ below
  | EndOfStream =>
      n = length msgs ∧ e = Closed ∧ calls = written taken ∧ below
  | Waiting =>
      n = length msgs ∧ e = Open ∧ calls = written taken ∧ below
  | SerializeFault =>
      (∃ m, msgs !! n = Some m ∧ Filter req m = true
            ∧ encodeErr (env (i + n)%nat) = true
            ∧ calls = (written taken
                         ++ [Encode m false;
                             Encode fallbackMessage (negb (fallbackErr (env (i + n)%nat)))])%list)
      ∧ below
  | LimitReached =>
      0 < Limit req
      ∧ (∃ m, last (take n msgs) = Some m ∧ Filter req m = true)
      ∧ calls = written taken
      ∧ (sent < Limit req → sent + Z.of_nat (length taken) = Limit req)
  | _ => False
  end.

(** ** Further sample surroundings *)

Module Corner.

(** A request with a method the parser does not know. *)
Definition put (pairs : list (string * string)) (body : string) : HttpRequest :=
  {| Method := "PUT"; RawQuery := pairs; Body := body |}.

(** A requestor that keeps everything. Its query gives back a nil channel
    for the name "nil", fails for the name "down", and else yields two
    messages on a channel it leaves open. *)
Definition requestor : Requestor :=
  {| Filter := λ _ _, true;
     Query := λ q,
       if bool_decide (Name q = "nil") then (None, None)
       else if bool_decide (Name q = "down")
            then (None, Some (DecodeError "log backend unavailable"))
            else (Some (mkStream [Sample.message "x"; Sample.message "y"] Open), None) |}.

(** The client leaves at turn [n]. *)
Definition leaving (n : nat) : nat -> Tick :=
  λ i, {| closeNotify := bool_decide (i = n); encodeErr := false; fallbackErr := false |}.

End Corner.

(** * Properties of the parser *)

Section Values.

Lemma index_insert (m : gmap string (list string)) (key k : string) (vs : list string) :
  index (<[k := vs]> m) key = if bool_decide (k = key) then vs else index m key.
Proof.
  unfold index. case_bool_decide as Hk.
  - subst k. by rewrite lookup_insert_eq.
  - by rewrite lookup_insert_ne.
Qed.

(** Folding the pairs into a map appends, under every key, the values
    of its occurrences in their order. *)
Lemma index_fold (pairs : list (string * string)) :
  ∀ (m : gmap string (list string)) (key : string),
    index (fold_left appendValue pairs m) key = (index m key ++ occurrences key pairs)%list.
Proof.
  induction pairs as [|[k v] pairs IH]; intros m key; simpl.
  - unfold occurrences. simpl. by rewrite app_nil_r.
  - rewrite IH. unfold appendValue, occurrences. simpl.
    rewrite index_insert. case_bool_decide as Hk; simpl.
    + subst k. by rewrite <- app_assoc.
    + done.
Qed.

Lemma index_ParseQuery (pairs : list (string * string)) (key : string) :
  index (ParseQuery pairs) key = occurrences key pairs.
Proof. unfold ParseQuery. rewrite index_fold. unfold index. by rewrite lookup_empty. Qed.

Lemma getValue_last (query : gmap string (list string)) (key : string) :
  getValue query key = default "" (last (index query key)).
Proof.
  unfold getValue. rewrite last_lookup, Nat.sub_1_r.
  destruct (index query key) as [|v vs]; done.
Qed.

Lemma getValue_ParseQuery (pairs : list (string * string)) (key : string) :
  getValue (ParseQuery pairs) key = default "" (lastValue pairs key).
Proof. by rewrite getValue_last, index_ParseQuery. Qed.

Lemma occurrences_elem (key : string) (pairs : list (string * string)) :
  occurrences key pairs ≠ [] ↔ key ∈ pairs.*1.
Proof.
  unfold occurrences. induction pairs as [|[k v] pairs IH]; simpl.
  - split; [done | by intros ?%elem_of_nil].
  - case_bool_decide as Hk; simpl.
    + subst k. split; [intros _; left | done].
    + rewrite IH. split; [by right | by intros [?|?]%elem_of_cons].
Qed.

Lemma lastValue_elem (pairs : list (string * string)) (key : string) :
  is_Some (lastValue pairs key) ↔ key ∈ pairs.*1.
Proof.
  rewrite <- occurrences_elem. unfold lastValue.
  rewrite last_is_Some. done.
Qed.

(** The pattern step sees the last occurrence, or nothing. *)
Lemma parsePattern_ParseQuery (pairs : list (string * string)) (q : Request) :
  parsePattern (ParseQuery pairs) q =
    (match lastValue pairs "pattern" with
     | Some v => setPattern (Some v) q
     | None => q
     end, None).
Proof.
  unfold parsePattern, lastValue. rewrite index_ParseQuery.
  rewrite last_lookup, Nat.sub_1_r.
  destruct (occurrences "pattern" pairs) as [|v vs] eqn:E; [done|].
  change (0 <? length (v :: vs))%nat with true. cbv iota.
  destruct ((v :: vs) !! pred (length (v :: vs))) as [x|] eqn:Ex; [done|].
  apply lookup_ge_None in Ex. simpl in Ex. lia.
Qed.

End Values.

(** Splits a parse result along the tests the parser makes. *)
Ltac parse_cases :=
  repeat (case_bool_decide || case_match); simplify_eq/=.

Section Parser.

Context {decoders : Decoders}.

(** [parseGet] with its steps laid out. *)
Lemma parseGet_unfold (query : gmap string (list string)) :
  parseGet query zeroRequest =
    let q1 := setInstance (getValue query "instance")
                (setName (getValue query "name") zeroRequest) in
    match parseLimit query q1 with
    | (q2, Some e) => (q2, Some e)
    | (q2, None) =>
        let q3 := setInvert (ParseBool (getValue query "invert")).1
                    (setFollow (ParseBool (getValue query "follow")).1 q2) in
        match parseSince query q3 with
        | (q4, Some e) => (q4, Some e)
        | (q4, None) => parsePattern query q4
        end
    end.
Proof. reflexivity. Qed.

(** A GET request is parsed from the last value of each key alone. *)
Lemma parseRequest_get (r : HttpRequest) :
  Method r = MethodGet →
  parseRequest r =
    let value := λ key, default "" (lastValue (RawQuery r) key) in
    let q1 := setInstance (value "instance") (setName (value "name") zeroRequest) in
    match (if bool_decide (value "limit" ≠ "")
           then let '(n, err) := Atoi (value "limit") in (setLimit n q1, err)
           else (q1, None)) with
    | (q2, Some e) => (q2, Some e)
    | (q2, None) =>
        let q3 := setInvert (ParseBool (value "invert")).1
                    (setFollow (ParseBool (value "follow")).1 q2) in
        match (if bool_decide (value "since" ≠ "")
               then let '(since, err) := timeParse (value "since") in
                    (setSince (Some since) q3, err)
               else (q3, None)) with
        | (q4, Some e) => (q4, Some e)
        | (q4, None) =>
            (match lastValue (RawQuery r) "pattern" with
             | Some v => setPattern (Some v) q4
             | None => q4
             end, None)
        end
    end.
Proof.
  intros Hget. unfold parseRequest. rewrite bool_decide_eq_true_2 by done.
  rewrite parseGet_unfold. unfold parseLimit, parseSince, URLQuery.
  rewrite !getValue_ParseQuery. cbv beta zeta.
  destruct (if bool_decide (default "" (lastValue (RawQuery r) "limit") ≠ "") then _ else _)
    as [q2 [e|]]; [done|].
  destruct (if bool_decide (default "" (lastValue (RawQuery r) "since") ≠ "") then _ else _)
    as [q4 [e|]]; [done|].
  apply parsePattern_ParseQuery.
Qed.


(** C6, amended. In a GET request that is parsed without error (its
    limit and its since are each absent, empty or well-formed), the pattern
    of the query is exactly the last occurrence of the [pattern] key: it is
    set if and only if the key occurs, and a key given the empty value
    yields the set, empty pattern, which differs from the unset pattern of
    every parsed request without the key. *)
Theorem pattern_set_iff_present (r : HttpRequest) (q : Request)
    (Hget : Method r = MethodGet)
    (Hparsed : parseRequest r = (q, None)) :
  Pattern q = lastValue (RawQuery r) "pattern"
  ∧ (is_Some (Pattern q) ↔ "pattern" ∈ (RawQuery r).*1)
  ∧ (lastValue (RawQuery r) "pattern" = Some "" →
       Pattern q = Some ""
       ∧ ∀ r' q', Method r' = MethodGet → parseRequest r' = (q', None) →
           "pattern" ∉ (RawQuery r').*1 → Pattern q' = None ∧ q ≠ q').
Proof.
  assert (Hpat : ∀ r0 q0, Method r0 = MethodGet → parseRequest r0 = (q0, None) →
                   Pattern q0 = lastValue (RawQuery r0) "pattern").
  { intros r0 q0 Hget0. rewrite parseRequest_get by done. cbv beta zeta.
    unfold timeParse. intros Hq. repeat case_match; by simplify_eq/=. }
  pose proof (Hpat r q Hget Hparsed) as Hq.
  split; [done|]. split.
  - rewrite Hq. apply lastValue_elem.
  - intros Hempty. split; [congruence|].
    intros r' q' Hget' Hparsed' Habsent.
    pose proof (Hpat r' q' Hget' Hparsed') as Hq'.
    assert (Pattern q' = None) as Hnone.
    { rewrite Hq'. apply eq_None_not_Some. by rewrite lastValue_elem. }
    split; [done|]. intros ->. congruence.
Qed.

(** C8, amended. In a GET request whose limit is absent, empty or an
    integer, parsing fails if and only if the since value is non-empty
    and not a timestamp [time.Parse] accepts, and the error is then the
    one of [time.Parse]; an absent or empty since value gives no error and
    leaves [Since] unset, a well-formed one is stored. *)
Theorem since_error_iff_malformed (r : HttpRequest) (q : Request) (e : option error)
    (Hget : Method r = MethodGet)
    (Hlimit : limitPasses r)
    (Hres : parseRequest r = (q, e)) :
  let sinceStr := getValue (URLQuery r) "since" in
  (e ≠ None ↔ sinceStr ≠ "" ∧ parseRFC3339 sinceStr = None)
  ∧ (e ≠ None → e = Some (ParseError RFC3339 sinceStr))
  ∧ (sinceStr = "" → e = None ∧ Since q = None)
  ∧ (sinceStr ≠ "" → ∀ t, parseRFC3339 sinceStr = Some t → Since q = Some t).
Proof.
  revert Hlimit Hres. unfold limitPasses, URLQuery. cbv zeta.
  rewrite parseRequest_get by done. rewrite !getValue_ParseQuery. cbv beta zeta.
  unfold timeParse. intros Hlimit Hq.
  destruct Hlimit as [Hlimit|Hlimit].
  - rewrite Hlimit in Hq. simpl in Hq.
    parse_cases; intuition (congruence || done).
  - destruct (Atoi (default "" (lastValue (RawQuery r) "limit"))) as [n err] eqn:EA.
    simpl in Hlimit. subst err.
    parse_cases; intuition (congruence || done).
Qed.

(** C9, amended. In a GET request, a follow or invert value that is not
    a boolean leaves the field [false] and raises no error: the request
    is parsed with no error whenever its limit and its since are each
    absent, empty or well-formed. *)
Theorem unparseable_flag_is_false (r : HttpRequest) (q : Request) (e : option error)
    (Hget : Method r = MethodGet)
    (Hres : parseRequest r = (q, e)) :
  ((ParseBool (getValue (URLQuery r) "follow")).2 ≠ None → Follow q = false)
  ∧ ((ParseBool (getValue (URLQuery r) "invert")).2 ≠ None → Invert q = false)
  ∧ (limitPasses r → sincePasses r → e = None).
Proof.
  revert Hres. unfold limitPasses, sincePasses, URLQuery. cbv zeta.
  rewrite parseRequest_get by done. rewrite !getValue_ParseQuery. cbv beta zeta.
  unfold timeParse, ParseBool. intros Hq.
  split; [|split].
  - intros Hbad. repeat case_match; simplify_eq/=; done.
  - intros Hbad. repeat case_match; simplify_eq/=; done.
  - intros [Hlimit|Hlimit] [Hsince|[t Hsince]].
    + rewrite Hlimit, Hsince in Hq. simpl in Hq. by simplify_eq.
    + rewrite Hlimit, Hsince in Hq. simpl in Hq. repeat case_match; by simplify_eq/=.
    + destruct (Atoi _) as [n err]. simpl in Hlimit. subst err.
      rewrite Hsince in Hq. simpl in Hq. repeat case_match; by simplify_eq/=.
    + destruct (Atoi _) as [n err]. simpl in Hlimit. subst err.
      rewrite Hsince in Hq. repeat case_match; by simplify_eq/=.
Qed.

(** C10, amended. In a GET request whose limit is absent, empty or an
    integer and whose since is non-empty and malformed, [parseRequest]
    returns the error of [time.Parse] together with a query whose [Since]
    points to the zero time; the pattern has not been read. *)
Theorem malformed_since_stores_zero_time (r : HttpRequest) (q : Request) (e : option error)
    (Hget : Method r = MethodGet)
    (Hlimit : limitPasses r)
    (Hsince : getValue (URLQuery r) "since" ≠ "")
    (Hbad : parseRFC3339 (getValue (URLQuery r) "since") = None)
    (Hres : parseRequest r = (q, e)) :
  e = Some (ParseError RFC3339 (getValue (URLQuery r) "since"))
  ∧ Since q = Some zeroTime
  ∧ Pattern q = None.
Proof.
  revert Hlimit Hsince Hbad Hres. unfold limitPasses, URLQuery. cbv zeta.
  rewrite parseRequest_get by done. rewrite !getValue_ParseQuery. cbv beta zeta.
  unfold timeParse. intros Hlimit Hsince Hbad Hq.
  rewrite Hbad in Hq. rewrite (bool_decide_eq_true_2 _ Hsince) in Hq.
  destruct Hlimit as [Hlimit|Hlimit].
  - rewrite Hlimit in Hq. simpl in Hq. by simplify_eq/=.
  - destruct (Atoi _) as [n err]. simpl in Hlimit. subst err.
    repeat case_match; by simplify_eq/=.
Qed.

End Parser.

(** * Properties of the streaming loop *)

Section Loop.

Context {requestor : Requestor}.

Lemma written_app (ms ms' : list Message) :
  written (ms ++ ms') = (written ms ++ written ms')%list.
Proof. unfold written. by rewrite flat_map_app. Qed.

Lemma kept_app (req : Request) (ms ms' : list Message) :
  kept req (ms ++ ms') = (kept req ms ++ kept req ms')%list.
Proof. unfold kept. by rewrite List.filter_app. Qed.

Lemma quiet_head (env : nat -> Tick) (i n : nat) :
  quiet env i (S n) →
  closeNotify (env i) = false ∧ encodeErr (env i) = false ∧ quiet env (S i) n.
Proof.
  intros Hq. destruct (Hq 0%nat ltac:(lia)) as [Hc He].
  rewrite Nat.add_0_r in Hc, He. repeat split; try done.
  - replace (S i + j)%nat with (i + S j)%nat by lia. apply Hq. lia.
  - replace (S i + j)%nat with (i + S j)%nat by lia. apply Hq. lia.
Qed.

(** A turn in which the [select] delivers the head of the stream. *)
Lemma serve_received (req : Request) (env : nat -> Tick) (i : nat) (sent : Z)
    (msg : Message) (rest : list Message) (e : StreamEnd) :
  closeNotify (env i) = false →
  serve req env i sent (msg :: rest) e =
    let '(calls, next) := iteration req (env i) sent (Received msg) in
    match next with
    | Stop x => (calls, x)
    | Continue sent' =>
        let '(calls', x) := serve req env (S i) sent' rest e in
        ((calls ++ calls')%list, x)
    end.
Proof. intros Hc. cbn [serve]. unfold select. by rewrite Hc. Qed.

(** A turn in which the client has gone. *)
Lemma serve_closeNotified (req : Request) (env : nat -> Tick) (i : nat) (sent : Z)
    (msgs : list Message) (e : StreamEnd) :
  closeNotify (env i) = true →
  serve req env i sent msgs e = ([], ClientGone).
Proof. intros Hc. destruct msgs; cbn [serve]; unfold select; by rewrite Hc. Qed.

(** The turn after the last message. *)
Lemma serve_drained (req : Request) (env : nat -> Tick) (i : nat) (sent : Z)
    (e : StreamEnd) :
  closeNotify (env i) = false →
  serve req env i sent [] e =
    ([], match e with Closed => EndOfStream | Open => Waiting end).
Proof. intros Hc. cbn [serve]. unfold select. rewrite Hc. by destruct e. Qed.

(** Through a quiet stretch in which the limit is not reached, the loop
    writes the kept messages and goes on with the rest. *)
Lemma serve_quiet_prefix (pre : list Message) :
  ∀ (req : Request) (env : nat -> Tick) (i : nat) (sent : Z)
    (rest : list Message) (e : StreamEnd),
    quiet env i (length pre) →
    Limit req ≤ 0 ∨ sent + Z.of_nat (length (kept req pre)) < Limit req →
    serve req env i sent (pre ++ rest) e =
      let '(calls, x) :=
        serve req env (i + length pre)
          (counted req sent (length (kept req pre))) rest e in
      ((written (kept req pre) ++ calls)%list, x).
Proof.
  induction pre as [|msg pre IH]; intros req env i sent rest e Hq Hroom.
  - simpl. unfold counted. rewrite Nat.add_0_r, Z.add_0_r.
    destruct (0 <? Limit req); by destruct (serve req env i sent rest e).
  - apply quiet_head in Hq as (Hc & He & Hq).
    change ((msg :: pre) ++ rest)%list with (msg :: (pre ++ rest))%list.
    rewrite serve_received by done. unfold iteration. rewrite He.
    unfold kept in *. cbn [List.filter length] in *.
    destruct (Filter req msg) eqn:Hf; cbn [negb length] in *.
    + destruct (0 <? Limit req) eqn:Hl.
      * apply Z.ltb_lt in Hl.
        destruct (Limit req <=? sent + 1) eqn:Hs; [apply Z.leb_le in Hs; lia|].
        rewrite IH by (done || lia).
        replace (S i + length pre)%nat with (i + S (length pre))%nat by lia.
        unfold counted. rewrite (proj2 (Z.ltb_lt _ _)) by done.
        replace (sent + 1 + Z.of_nat (length (List.filter (Filter req) pre)))
          with (sent + Z.of_nat (S (length (List.filter (Filter req) pre)))) by lia.
        by destruct (serve _ _ _ _ rest e).
      * apply Z.ltb_ge in Hl.
        rewrite IH by (done || lia).
        replace (S i + length pre)%nat with (i + S (length pre))%nat by lia.
        unfold counted. rewrite (proj2 (Z.ltb_ge _ _)) by done.
        by destruct (serve _ _ _ _ rest e).
    + rewrite IH by done.
      replace (S i + length pre)%nat with (i + S (length pre))%nat by lia.
      by destruct (serve _ _ _ _ rest e).
Qed.

(** Under a positive limit, a quiet stretch with enough kept messages
    ends the loop at the limit. *)
Lemma serve_until_limit (msgs : list Message) :
  ∀ (req : Request) (env : nat -> Tick) (i : nat) (sent : Z)
    (rest : list Message) (e : StreamEnd),
    sent < Limit req → 0 ≤ sent →
    Limit req - sent ≤ Z.of_nat (length (kept req msgs)) →
    quiet env i (length msgs) →
    serve req env i sent (msgs ++ rest) e =
      (written (take (Z.to_nat (Limit req - sent)) (kept req msgs)), LimitReached).
Proof.
  induction msgs as [|msg msgs IH]; intros req env i sent rest e Hlt Hsent Hk Hq.
  - simpl in Hk. lia.
  - apply quiet_head in Hq as (Hc & He & Hq).
    change ((msg :: msgs) ++ rest)%list with (msg :: (msgs ++ rest))%list.
    rewrite serve_received by done. unfold iteration. rewrite He.
    unfold kept in *. cbn [List.filter] in *.
    destruct (Filter req msg) eqn:Hf; cbn [negb length] in *.
    + rewrite (proj2 (Z.ltb_lt 0 (Limit req))) by lia.
      destruct (Limit req <=? sent + 1) eqn:Hs.
      * apply Z.leb_le in Hs. replace (Limit req - sent) with 1 by lia. done.
      * apply Z.leb_gt in Hs. rewrite IH by (done || lia).
        replace (Z.to_nat (Limit req - sent)) with (S (Z.to_nat (Limit req - (sent + 1))))
          by lia.
        done.
    + by rewrite IH.
Qed.

(** Without a limit the loop runs until the client goes, the stream
    ends or an [Encode] fails, and has then written the kept messages
    among those it took. *)
Lemma serve_unlimited (req : Request) (Hlim : Limit req ≤ 0) (msgs : list Message) :
  ∀ (env : nat -> Tick) (i : nat) (sent : Z) (e : StreamEnd),
    ∃ n, (n ≤ length msgs)%nat
         ∧ (∀ j m, (j < n)%nat → msgs !! j = Some m →
              closeNotify (env (i + j)%nat) = false
              ∧ (Filter req m = true → encodeErr (env (i + j)%nat) = false))
         ∧ endsAfter req env i msgs e n
             (serve req env i sent msgs e).1 (serve req env i sent msgs e).2.
Proof.
  assert (Hoff : (0 <? Limit req) = false) by (apply Z.ltb_ge; lia).
  induction msgs as [|msg msgs IH]; intros env i sent e.
  - exists 0%nat. split; [done|]. split; [intros; lia|].
    destruct (closeNotify (env i)) eqn:Hc.
    + rewrite serve_closeNotified by done. simpl. by rewrite Nat.add_0_r.
    + rewrite serve_drained by done. by destruct e.
  - destruct (closeNotify (env i)) eqn:Hc.
    { exists 0%nat. split; [simpl; lia|]. split; [intros; lia|].
      rewrite serve_closeNotified by done. simpl. by rewrite Nat.add_0_r. }
    rewrite serve_received by done. unfold iteration.
    destruct (Filter req msg) eqn:Hf; cbn [negb].
    + destruct (encodeErr (env i)) eqn:He.
      { exists 0%nat. split; [simpl; lia|]. split; [intros; lia|].
        simpl. exists msg. by rewrite Nat.add_0_r, He. }
      rewrite Hoff.
      destruct (IH env (S i) sent e) as (n & Hn & Hbefore & Hend).
      exists (S n). split; [simpl; lia|]. split.
      * intros [|j] m Hj Hm.
        -- rewrite Nat.add_0_r. simplify_eq/=. done.
        -- replace (i + S j)%nat with (S i + j)%nat by lia.
           apply Hbefore; [lia|done].
      * destruct (serve req env (S i) sent msgs e) as [calls x].
        unfold endsAfter, kept in Hend |- *.
        cbn [fst snd take List.filter length] in Hend |- *.
        replace (i + S n)%nat with (S i + n)%nat by lia.
        rewrite Hf.
        destruct x; try done; cbn [written flat_map app].
        -- destruct Hend as [Hgone ->]. done.
        -- destruct Hend as (-> & -> & ->). done.
        -- destruct Hend as (m & Hm & Hk & Hm' & ->). by exists m.
        -- destruct Hend as (-> & -> & ->). done.
    + destruct (IH env (S i) sent e) as (n & Hn & Hbefore & Hend).
      exists (S n). split; [simpl; lia|]. split.
      * intros [|j] m Hj Hm.
        -- rewrite Nat.add_0_r. simplify_eq/=. split; [done|congruence].
        -- replace (i + S j)%nat with (S i + j)%nat by lia.
           apply Hbefore; [lia|done].
      * destruct (serve req env (S i) sent msgs e) as [calls x].
        unfold endsAfter, kept in Hend |- *.
        cbn [fst snd take List.filter length] in Hend |- *.
        replace (i + S n)%nat with (S i + n)%nat by lia.
        rewrite Hf.
        destruct x; try done.
        -- destruct Hend as (-> & -> & ->). done.
        -- destruct Hend as (-> & -> & ->). done.
Qed.

(** C1, amended. Under a limit [k > 0], when a stretch [msgs] of the
    stream holds at least [k] kept messages and, while it is delivered,
    the client stays connected and no [Encode] fails, the loop writes
    exactly the first [k] kept messages, each followed by a flush, in
    the order of the stream, and returns; whatever the request says
    about follow, whatever the stream would yield next ([rest]) and
    whether it is ever closed ([e]). *)
Theorem limit_writes_first_k (req : Request) (env : nat -> Tick)
    (msgs rest : list Message) (e : StreamEnd)
    (Hpos : 0 < Limit req)
    (Hkept : Limit req ≤ Z.of_nat (length (kept req msgs)))
    (Hquiet : quiet env 0 (length msgs)) :
  serve req env 0 0 (msgs ++ rest) e =
    (written (take (Z.to_nat (Limit req)) (kept req msgs)), LimitReached)
  ∧ Z.of_nat (length (take (Z.to_nat (Limit req)) (kept req msgs))) = Limit req.
Proof.
  split.
  - rewrite (serve_until_limit msgs req env 0 0 rest e) by (done || lia).
    by rewrite Z.sub_0_r.
  - rewrite length_take. lia.
Qed.

(** C2. A message the filter rejects makes its turn of the loop write
    nothing and leave the count as it is, and the loop goes on with the
    next message. *)
Theorem rejected_message_is_skipped (req : Request) (t : Tick) (sent : Z) (msg : Message)
    (Hrejected : Filter req msg = false) :
  iteration req t sent (Received msg) = ([], Continue sent)
  ∧ ∀ (env : nat -> Tick) (i : nat) (rest : list Message) (e : StreamEnd),
      env i = t → closeNotify t = false →
      serve req env i sent (msg :: rest) e = serve req env (S i) sent rest e.
Proof.
  assert (Hturn : ∀ t', iteration req t' sent (Received msg) = ([], Continue sent)).
  { intros t'. unfold iteration. by rewrite Hrejected. }
  split; [done|].
  intros env i rest e Hi Hc. subst t.
  rewrite serve_received, Hturn by done.
  by destruct (serve req env (S i) sent rest e).
Qed.

(** C3, amended. Under a limit [<= 0] the loop never stops for the
    limit: it takes the messages of the stream one by one until, at some
    turn [n], the client has gone, the stream is exhausted or an
    [Encode] fails, and what it has written then is every message the
    filter keeps among those it took, in order (followed, after a failed
    [Encode], by the fallback line). When nothing disturbs the run, that
    is every kept message of the stream. *)
Theorem unlimited_writes_every_kept (req : Request) (env : nat -> Tick) (i : nat)
    (sent : Z) (msgs : list Message) (e : StreamEnd)
    (Hlim : Limit req ≤ 0) :
  (∃ n, (n ≤ length msgs)%nat
        ∧ (∀ j m, (j < n)%nat → msgs !! j = Some m →
             closeNotify (env (i + j)%nat) = false
             ∧ (Filter req m = true → encodeErr (env (i + j)%nat) = false))
        ∧ endsAfter req env i msgs e n
            (serve req env i sent msgs e).1 (serve req env i sent msgs e).2)
  ∧ (serve req env i sent msgs e).2 ≠ LimitReached
  ∧ (quiet env i (S (length msgs)) →
       serve req env i sent msgs e =
         (written (kept req msgs),
          match e with Closed => EndOfStream | Open => Waiting end)).
Proof.
  pose proof (serve_unlimited req Hlim msgs env i sent e) as Hrun.
  split; [done|]. split.
  - destruct Hrun as (n & _ & _ & Hend). intros Hx. rewrite Hx in Hend. done.
  - intros Hq.
    assert (Hq' : quiet env i (length msgs)) by (intros j Hj; apply Hq; lia).
    destruct (Hq (length msgs) ltac:(lia)) as [Hc _].
    rewrite <- (app_nil_r msgs) at 1.
    rewrite serve_quiet_prefix by (done || by left).
    rewrite serve_drained by done.
    by rewrite app_nil_r.
Qed.

(** C4. When the [Encode] of a kept message fails at some turn [n] of
    the loop, whatever has been sent so far, the loop makes exactly one
    more call, the [Encode] of the fallback message whose text says that
    serialization failed, ignores its result and returns: nothing of
    [rest] is written. Seen from the start of a stream, after a stretch
    [pre] that the loop got through, the trace is the kept messages of
    [pre], the failed call and the fallback call. *)
Theorem serialization_fault_writes_one_fallback (req : Request) (env : nat -> Tick)
    (n : nat) (sent : Z) (msg : Message) (rest : list Message) (e : StreamEnd)
    (Hconn : closeNotify (env n) = false)
    (Hkeep : Filter req msg = true)
    (Hfail : encodeErr (env n) = true) :
  let fault := [Encode msg false;
                Encode fallbackMessage (negb (fallbackErr (env n)))] in
  Text fallbackMessage = "failed to serialize log message"
  ∧ iteration req (env n) sent (Received msg) = (fault, Stop SerializeFault)
  ∧ serve req env n sent (msg :: rest) e = (fault, SerializeFault)
  ∧ ∀ (pre : list Message) (i : nat) (sent0 : Z),
      n = (i + length pre)%nat →
      quiet env i (length pre) →
      Limit req ≤ 0 ∨ sent0 + Z.of_nat (length (kept req pre)) < Limit req →
      serve req env i sent0 (pre ++ msg :: rest) e =
        ((written (kept req pre) ++ fault)%list, SerializeFault).
Proof.
  cbv zeta.
  assert (Hturn : ∀ s, iteration req (env n) s (Received msg) =
                       ([Encode msg false;
                         Encode fallbackMessage (negb (fallbackErr (env n)))],
                        Stop SerializeFault)).
  { intros s. unfold iteration. by rewrite Hkeep, Hfail. }
  split; [done|]. split; [done|]. split.
  - by rewrite serve_received, Hturn.
  - intros pre i sent0 -> Hpre Hroom.
    rewrite serve_quiet_prefix by done.
    by rewrite serve_received, Hturn.
Qed.

End Loop.

(** * Properties of the handler *)

Section Handler.

Context {decoders : Decoders} {httpUtils : HttpUtils} {requestor : Requestor}.

Lemma Forall_OnWriter (calls : list WriterCall) :
  Forall (λ e, isQueryCall e = false) (map OnWriter calls).
Proof. induction calls; by constructor. Qed.

(** Once the writer can stream, the request is parsed and the query has
    returned a stream, the handler is the loop, run from its first turn
    with nothing sent, between the response headers and the deferred
    calls. *)
Lemma handler_streams (env : nat -> Tick) (w : ResponseWriter) (r : HttpRequest)
    (logRequest : Request) (s : Stream) :
  isCloseNotifier w = true → isFlusher w = true →
  parseRequest r = (logRequest, None) →
  Query logRequest = (Some s, None) →
  NewLogHandlerFunc env w r =
    let '(calls, x) := serve logRequest env 0 0 (messages s) (ending s) in
    ((QueryCall logRequest
        :: map OnWriter
             ([HeaderSet "Transfer-Encoding" "chunked";
               HeaderSet "Content-Type" "application/x-ndjson";
               WriteHeader StatusOK;
               Flush] ++ calls)
        ++ deferred x)%list, x).
Proof.
  intros Hcn Hfl Hparse Hquery. unfold NewLogHandlerFunc.
  by rewrite Hcn, Hfl, Hparse, Hquery.
Qed.

(** C7, amended. For a request whose parsing fails the handler never
    calls [Query]; on a response writer that is a close notifier and a
    flusher it answers with status 422, and on any other writer it has
    answered 404 before parsing. *)
Theorem parse_failure_is_unprocessable (env : nat -> Tick) (w : ResponseWriter)
    (r : HttpRequest)
    (Hfail : (parseRequest r).2 ≠ None) :
  let effects := (NewLogHandlerFunc env w r).1 in
  let status := committedStatus (writerCalls effects) in
  Forall (λ e, isQueryCall e = false) effects
  ∧ (isCloseNotifier w = true → isFlusher w = true →
       status = Some StatusUnprocessableEntity
       ∧ NewLogHandlerFunc env w r =
           ((map OnWriter
               (WriteHeader StatusUnprocessableEntity
                  :: WriteError StatusUnprocessableEntity "could not parse the log request")
               ++ [CloseBody])%list, ParseFailed))
  ∧ (isCloseNotifier w = false ∨ isFlusher w = false →
       status = Some StatusNotFound).
Proof.
  cbv zeta. unfold NewLogHandlerFunc.
  destruct (parseRequest r) as [q [err|]]; [|done].
  destruct (isCloseNotifier w), (isFlusher w); cbn [negb fst].
  - split; [|split; [done|by intros [?|?]]].
    apply Forall_app; split; [apply Forall_OnWriter | by repeat constructor].
  - split; [by repeat constructor|]. split; [done|]. intros _. reflexivity.
  - split; [by repeat constructor|]. split; [done|]. intros _. reflexivity.
  - split; [by repeat constructor|]. split; [done|]. intros _. reflexivity.
Qed.

End Handler.

(** * Further properties of the parser *)

Section ParserEdges.

Context {decoders : Decoders}.

Lemma occurrences_filter (f : string * string -> bool) (k : string)
    (pairs : list (string * string)) :
  (∀ p, p.1 = k → f p = true) →
  occurrences k (List.filter f pairs) = occurrences k pairs.
Proof.
  intros Hf. unfold occurrences.
  induction pairs as [|p pairs IH]; [done|]. simpl.
  destruct (f p) eqn:Hp; simpl.
  - case_bool_decide; simpl; by rewrite IH.
  - case_bool_decide as Hk; [|done]. rewrite Hf in Hp by done. done.
Qed.

Lemma occurrences_withoutKey (key k : string) (pairs : list (string * string)) :
  occurrences k (withoutKey key pairs) =
    if bool_decide (k = key) then [] else occurrences k pairs.
Proof.
  unfold occurrences, withoutKey.
  induction pairs as [|p pairs IH]; simpl.
  - by case_bool_decide.
  - repeat (case_bool_decide; simpl in *); simplify_eq; try done; by rewrite IH.
Qed.

Lemma lastValue_absent (pairs : list (string * string)) (k : string) :
  k ∉ pairs.*1 → lastValue pairs k = None.
Proof. intros Hk. apply eq_None_not_Some. by rewrite lastValue_elem. Qed.

(** X1. The parser reads seven keys and nothing else: dropping every
    pair under another key from the query string of a GET request does not
    change the result, and a GET request in which none of the seven keys
    occurs is parsed to the zero [Request] with no error. *)
Theorem unread_keys_are_ignored (r : HttpRequest)
    (Hget : Method r = MethodGet) :
  parseRequest (withQuery (readPairs (RawQuery r)) r) = parseRequest r
  ∧ ((∀ k, k ∈ parameterKeys → k ∉ (RawQuery r).*1) →
       parseRequest r = (zeroRequest, None)).
Proof.
  split.
  - rewrite !parseRequest_get by done. cbv beta zeta.
    unfold withQuery, readPairs, lastValue. cbn [RawQuery].
    rewrite !occurrences_filter; [done|..];
      intros p ->; apply bool_decide_eq_true_2; unfold parameterKeys; repeat constructor.
  - intros Hnone. rewrite parseRequest_get by done. cbv beta zeta.
    unfold parameterKeys in Hnone.
    rewrite !lastValue_absent by (apply Hnone; repeat constructor).
    reflexivity.
Qed.

(** X2. A limit that [Atoi] rejects ends the parsing of a GET request
    there: the error is the one of [Atoi], and the query that comes with it
    holds the name, the instance and the number [Atoi] returned, and the
    zero value of every other field, whatever follow, invert, since and
    pattern the request gives. *)
Theorem rejected_limit_stops_parsing (r : HttpRequest) (n : Z) (err : error)
    (Hget : Method r = MethodGet)
    (Hlimit : getValue (URLQuery r) "limit" ≠ "")
    (Hatoi : Atoi (getValue (URLQuery r) "limit") = (n, Some err)) :
  parseRequest r =
    (setLimit n
       (setInstance (getValue (URLQuery r) "instance")
          (setName (getValue (URLQuery r) "name") zeroRequest)),
     Some err).
Proof.
  unfold parseRequest. rewrite bool_decide_eq_true_2 by done.
  rewrite parseGet_unfold. cbv zeta. unfold parseLimit.
  rewrite bool_decide_eq_true_2 by done. by rewrite Hatoi.
Qed.

(** X3. Whatever a GET request holds and however parsing ends, the query
    returned carries the last name and the last instance given; and an
    error, when there is one, is the one [Atoi] gave for a non-empty limit
    or the one [time.Parse] gave for a non-empty since: a flag or a pattern
    never fails the parse. *)
Theorem get_result_name_and_errors (r : HttpRequest) (q : Request) (e : option error)
    (Hget : Method r = MethodGet)
    (Hres : parseRequest r = (q, e)) :
  Name q = getValue (URLQuery r) "name"
  ∧ Instance q = getValue (URLQuery r) "instance"
  ∧ ∀ err, e = Some err →
      (getValue (URLQuery r) "limit" ≠ ""
       ∧ (Atoi (getValue (URLQuery r) "limit")).2 = Some err)
      ∨ (getValue (URLQuery r) "since" ≠ ""
         ∧ parseRFC3339 (getValue (URLQuery r) "since") = None
         ∧ err = ParseError RFC3339 (getValue (URLQuery r) "since")).
Proof.
  revert Hres. unfold URLQuery.
  rewrite parseRequest_get by done. rewrite !getValue_ParseQuery. cbv beta zeta.
  unfold timeParse. intros Hq.
  destruct (Atoi (default "" (lastValue (RawQuery r) "limit"))) as [n aerr] eqn:EA.
  parse_cases; repeat split; try done; intros err' ?; simplify_eq; auto.
Qed.

(** X4. In a GET request that gets past its limit, follow and invert are
    true exactly when their last value is one of the six spellings of true
    that [ParseBool] knows, also when since then fails; in one that stops
    at its limit both stay false. *)
Theorem flags_true_iff_spelled_true (r : HttpRequest) (q : Request) (e : option error)
    (Hget : Method r = MethodGet)
    (Hres : parseRequest r = (q, e)) :
  (limitPasses r →
     (Follow q = true ↔ getValue (URLQuery r) "follow" ∈ trueSpellings)
     ∧ (Invert q = true ↔ getValue (URLQuery r) "invert" ∈ trueSpellings))
  ∧ (¬ limitPasses r → Follow q = false ∧ Invert q = false).
Proof.
  assert (Hbool : ∀ s, (ParseBool s).1 = true ↔ s ∈ trueSpellings).
  { intros s. unfold ParseBool, trueSpellings.
    repeat case_bool_decide; simpl; split; done. }
  revert Hres. unfold limitPasses, URLQuery. cbv zeta.
  rewrite parseRequest_get by done. rewrite !getValue_ParseQuery. cbv beta zeta.
  unfold timeParse. intros Hq.
  destruct (Atoi (default "" (lastValue (RawQuery r) "limit"))) as [n aerr] eqn:EA.
  split.
  - intros [Hl|Hl].
    + rewrite Hl in Hq. simpl in Hq. rewrite <- !Hbool.
      parse_cases; done.
    + simpl in Hl. subst aerr. rewrite <- !Hbool.
      parse_cases; done.
  - intros Hstop. parse_cases; try done; exfalso; apply Hstop; auto.
Qed.

(** X5. For the six keys read through [getValue], a key whose last value
    is empty is as good as absent: the GET request parses as it does with
    every pair under that key removed. (The pattern is the exception.) *)
Theorem empty_value_is_absent (r : HttpRequest) (key : string)
    (Hget : Method r = MethodGet)
    (Hkey : key ∈ parameterKeys)
    (Hnot : key ≠ "pattern")
    (Hempty : lastValue (RawQuery r) key = Some "") :
  parseRequest (withQuery (withoutKey key (RawQuery r)) r) = parseRequest r.
Proof.
  rewrite !parseRequest_get by done. cbv beta zeta.
  unfold withQuery. cbn [RawQuery].
  assert (Hother : ∀ k, k ≠ key →
            lastValue (withoutKey key (RawQuery r)) k = lastValue (RawQuery r) k).
  { intros k Hk. unfold lastValue. rewrite occurrences_withoutKey.
    by rewrite bool_decide_eq_false_2. }
  assert (Hsame : ∀ k, k ≠ "pattern" →
            default "" (lastValue (withoutKey key (RawQuery r)) k)
            = default "" (lastValue (RawQuery r) k)).
  { intros k Hk. destruct (decide (k = key)) as [->|Hne].
    - rewrite Hempty. unfold lastValue. rewrite occurrences_withoutKey.
      by rewrite bool_decide_eq_true_2.
    - by rewrite Hother. }
  rewrite !Hsame by discriminate. by rewrite (Hother "pattern").
Qed.

(** X18. The method decides what is read: a POST request is parsed from
    its body alone, so that nothing in its query string, not even a limit
    that is no number, can change or fail the result; a GET request is
    parsed from its query string alone, whatever its body. *)
Theorem method_decides_what_is_read (r : HttpRequest) (pairs : list (string * string))
    (body : string) :
  (Method r = MethodPost →
     parseRequest r = decodeJSON (Body r)
     ∧ parseRequest (withQuery pairs r) = parseRequest r)
  ∧ (Method r = MethodGet →
       parseRequest {| Method := Method r; RawQuery := RawQuery r; Body := body |}
       = parseRequest r).
Proof.
  split.
  - intros Hpost. unfold parseRequest, withQuery. cbn [Method Body].
    rewrite Hpost. by rewrite bool_decide_eq_false_2, bool_decide_eq_true_2.
  - intros Hget. unfold parseRequest, URLQuery. cbn [Method RawQuery].
    by rewrite !bool_decide_eq_true_2.
Qed.

End ParserEdges.

(** * Further properties of the streaming loop *)

Section LoopRuns.

Context {requestor : Requestor}.

(** Every run of the loop, under any limit and in any surroundings, ends
    in one of five ways after taking some of the messages, and has then
    written the kept ones among them. *)
Lemma serve_run (req : Request) (msgs : list Message) :
  ∀ (env : nat -> Tick) (i : nat) (sent : Z) (e : StreamEnd),
    ∃ n, (n ≤ length msgs)%nat
         ∧ stopsAfter req env i sent msgs e n
             (serve req env i sent msgs e).1 (serve req env i sent msgs e).2.
Proof.
  induction msgs as [|msg msgs IH]; intros env i sent e.
  - exists 0%nat. split; [done|].
    destruct (closeNotify (env i)) eqn:Hc.
    + rewrite serve_closeNotified by done. simpl. rewrite Nat.add_0_r.
      repeat split; (done || lia).
    + rewrite serve_drained by done. destruct e; simpl; repeat split; lia.
  - destruct (closeNotify (env i)) eqn:Hc.
    { exists 0%nat. split; [simpl; lia|].
      rewrite serve_closeNotified by done. simpl. rewrite Nat.add_0_r.
      repeat split; (done || lia). }
    rewrite serve_received by done. unfold iteration.
    destruct (Filter req msg) eqn:Hf; cbn [negb].
    + destruct (encodeErr (env i)) eqn:He.
      { exists 0%nat. split; [simpl; lia|].
        simpl. rewrite Nat.add_0_r, He. split; [by exists msg|lia]. }
      destruct (0 <? Limit req) eqn:Hl.
      * apply Z.ltb_lt in Hl.
        destruct (Limit req <=? sent + 1) eqn:Hs.
        { apply Z.leb_le in Hs. exists 1%nat. split; [simpl; lia|].
          unfold stopsAfter, kept. simpl. rewrite Hf.
          repeat split; try done; [by exists msg|simpl; lia]. }
        apply Z.leb_gt in Hs.
        destruct (IH env (S i) (sent + 1) e) as (n & Hn & Hend).
        exists (S n). split; [simpl; lia|].
        destruct (serve req env (S i) (sent + 1) msgs e) as [calls x].
        unfold stopsAfter, kept in Hend |- *.
        cbn [fst snd take List.filter length] in Hend |- *.
        replace (i + S n)%nat with (S i + n)%nat by lia.
        rewrite Hf. cbn [length written flat_map app].
        destruct x; try done.
        -- destruct Hend as (Hg & -> & Hb). repeat split; (done || lia).
        -- destruct Hend as (-> & -> & -> & Hb). repeat split; (done || lia).
        -- destruct Hend as ((m & Hm & Hk & Hm' & ->) & Hb).
           split; [by exists m|lia].
        -- destruct Hend as (_ & (m & Hm & Hk) & -> & Hb).
           repeat split; try done; [|lia].
           exists m. rewrite last_cons, Hm. done.
        -- destruct Hend as (-> & -> & -> & Hb). repeat split; (done || lia).
      * apply Z.ltb_ge in Hl.
        destruct (IH env (S i) sent e) as (n & Hn & Hend).
        exists (S n). split; [simpl; lia|].
        destruct (serve req env (S i) sent msgs e) as [calls x].
        unfold stopsAfter, kept in Hend |- *.
        cbn [fst snd take List.filter length] in Hend |- *.
        replace (i + S n)%nat with (S i + n)%nat by lia.
        rewrite Hf. cbn [length written flat_map app].
        destruct x; try done.
        -- destruct Hend as (Hg & -> & Hb). repeat split; (done || lia).
        -- destruct Hend as (-> & -> & -> & Hb). repeat split; (done || lia).
        -- destruct Hend as ((m & Hm & Hk & Hm' & ->) & Hb).
           split; [by exists m|lia].
        -- lia.
        -- destruct Hend as (-> & -> & -> & Hb). repeat split; (done || lia).
    + destruct (IH env (S i) sent e) as (n & Hn & Hend).
      exists (S n). split; [simpl; lia|].
      destruct (serve req env (S i) sent msgs e) as [calls x].
      unfold stopsAfter, kept in Hend |- *.
      cbn [fst snd take List.filter length] in Hend |- *.
      replace (i + S n)%nat with (S i + n)%nat by lia.
      rewrite Hf. cbn [app].
      destruct x; try done.
      * destruct Hend as (-> & -> & -> & Hb). done.
      * destruct Hend as (Hp & (m & Hm & Hk) & -> & Hb).
        repeat split; try done.
        exists m. rewrite last_cons, Hm. done.
      * destruct Hend as (-> & -> & -> & Hb). done.
Qed.

(** The loop ends in one of five ways. *)
Lemma serve_exits (req : Request) (env : nat -> Tick) (i : nat) (sent : Z)
    (msgs : list Message) (e : StreamEnd) :
  (serve req env i sent msgs e).2
    ∈ [ClientGone; EndOfStream; SerializeFault; LimitReached; Waiting].
Proof.
  destruct (serve_run req msgs env i sent e) as (n & _ & Hend).
  destruct (serve req env i sent msgs e) as [calls x]. cbn [fst snd] in *.
  destruct x; try done; repeat constructor.
Qed.

Lemma flushes_written (ms : list Message) (tail : list WriterCall) :
  flushes (written ms ++ tail) = (length ms + flushes tail)%nat.
Proof.
  unfold flushes. induction ms as [|m ms IH]; [done|].
  simpl. by rewrite IH.
Qed.

Lemma kept_take_prefix (req : Request) (n : nat) (msgs : list Message) :
  kept req (take n msgs) `prefix_of` kept req msgs.
Proof.
  exists (kept req (drop n msgs)). by rewrite <- kept_app, take_drop.
Qed.

(** X6. In every run of the loop, in any surroundings and under any
    limit, the messages written are an initial stretch of the kept messages
    of the stream, in their order, each followed by its flush; the only
    other calls a run can make are, at the very end, the failed [Encode] of
    the next kept message and the [Encode] of the fallback message. *)
Theorem writes_follow_the_stream (req : Request) (env : nat -> Tick) (i : nat) (sent : Z)
    (msgs : list Message) (e : StreamEnd) :
  ∃ ms, ms `prefix_of` kept req msgs
        ∧ ((serve req env i sent msgs e).2 ≠ SerializeFault
           ∧ (serve req env i sent msgs e).1 = written ms
           ∨ (serve req env i sent msgs e).2 = SerializeFault
             ∧ ∃ m b, (ms ++ [m])%list `prefix_of` kept req msgs
                      ∧ (serve req env i sent msgs e).1 =
                          (written ms ++ [Encode m false; Encode fallbackMessage b])%list).
Proof.
  destruct (serve_run req msgs env i sent e) as (n & Hn & Hend).
  exists (kept req (take n msgs)). split; [apply kept_take_prefix|].
  destruct (serve req env i sent msgs e) as [calls x]. cbn [fst snd] in *.
  unfold stopsAfter in Hend. cbv zeta in Hend.
  destruct x; try done.
  - left. by destruct Hend as (_ & -> & _).
  - left. by destruct Hend as (_ & _ & -> & _).
  - right. split; [done|].
    destruct Hend as ((m & Hm & Hk & _ & ->) & _).
    exists m, (negb (fallbackErr (env (i + n)%nat))). split; [|done].
    assert (kept req (take n msgs) ++ [m] = kept req (take (S n) msgs))%list as ->.
    { rewrite (take_S_r _ _ _ Hm), kept_app. unfold kept at 3. simpl. by rewrite Hk. }
    apply kept_take_prefix.
  - left. by destruct Hend as (_ & _ & -> & _).
  - left. by destruct Hend as (_ & _ & -> & _).
Qed.

(** X7. Under a positive limit that the count has not reached, no run of
    the loop, whatever the client and the encoder do, writes more stream
    messages than the limit leaves room for, and the loop returns for the
    limit exactly when it has written that many. *)
Theorem limit_is_never_exceeded (req : Request) (env : nat -> Tick) (i : nat) (sent : Z)
    (msgs : list Message) (e : StreamEnd)
    (Hpos : 0 < Limit req)
    (Hbelow : sent < Limit req) :
  sent + Z.of_nat (flushes (serve req env i sent msgs e).1) ≤ Limit req
  ∧ ((serve req env i sent msgs e).2 = LimitReached
     ↔ sent + Z.of_nat (flushes (serve req env i sent msgs e).1) = Limit req).
Proof.
  destruct (serve_run req msgs env i sent e) as (n & Hn & Hend).
  destruct (serve req env i sent msgs e) as [calls x]. cbn [fst snd] in *.
  unfold stopsAfter in Hend. cbv zeta in Hend.
  assert (Hcount : ∀ ms, flushes (written ms) = length ms).
  { intros ms. rewrite <- (app_nil_r (written ms)), flushes_written.
    unfold flushes. simpl. lia. }
  destruct x; try done.
  - destruct Hend as (_ & -> & Hb). rewrite Hcount. split; [lia|]. split; [done|lia].
  - destruct Hend as (_ & _ & -> & Hb). rewrite Hcount. split; [lia|]. split; [done|lia].
  - destruct Hend as ((m & _ & _ & _ & ->) & Hb). rewrite flushes_written.
    change (flushes [_; _]) with 0%nat.
    split; [lia|]. split; [done|lia].
  - destruct Hend as (_ & _ & -> & Hb). rewrite Hcount. split; [lia|]. split; [lia|done].
  - destruct Hend as (_ & _ & -> & Hb). rewrite Hcount. split; [lia|]. split; [done|lia].
Qed.

(** X8. The loop ends in one of five ways. When it ends with the end of
    the stream, the stream was closed and every kept message of it has
    been written; a handler that waits for ever has written every kept
    message of a stream that stays open; on a stream that is closed the
    loop always returns. *)
Theorem end_of_stream_means_all_written (req : Request) (env : nat -> Tick) (i : nat)
    (sent : Z) (msgs : list Message) (e : StreamEnd) :
  let calls := (serve req env i sent msgs e).1 in
  let x := (serve req env i sent msgs e).2 in
  x ∈ [ClientGone; EndOfStream; SerializeFault; LimitReached; Waiting]
  ∧ (x = EndOfStream → e = Closed ∧ calls = written (kept req msgs))
  ∧ (x = Waiting → e = Open ∧ calls = written (kept req msgs))
  ∧ (e = Closed → x ≠ Waiting).
Proof.
  cbv zeta.
  destruct (serve_run req msgs env i sent e) as (n & Hn & Hend).
  destruct (serve req env i sent msgs e) as [calls x]. cbn [fst snd] in *.
  unfold stopsAfter in Hend. cbv zeta in Hend.
  destruct x; try done.
  - split; [repeat constructor|done].
  - destruct Hend as (-> & -> & -> & _). rewrite firstn_all.
    split; [repeat constructor|done].
  - split; [repeat constructor|done].
  - split; [repeat constructor|done].
  - destruct Hend as (-> & -> & -> & _). rewrite firstn_all.
    split; [repeat constructor|done].
Qed.

(** X9. When the client goes away in the middle of a stream, after a
    stretch the loop got through, the loop returns at once: the response
    holds the kept messages of that stretch and nothing of what the stream
    holds next, and neither the filter nor the encoder is called again. *)
Theorem disconnect_halts_writes (req : Request) (env : nat -> Tick) (i : nat) (sent : Z)
    (pre rest : list Message) (e : StreamEnd)
    (Hpre : quiet env i (length pre))
    (Hroom : Limit req ≤ 0 ∨ sent + Z.of_nat (length (kept req pre)) < Limit req)
    (Hgone : closeNotify (env (i + length pre)%nat) = true) :
  serve req env i sent (pre ++ rest) e = (written (kept req pre), ClientGone).
Proof.
  rewrite serve_quiet_prefix by done.
  rewrite serve_closeNotified by done. by rewrite app_nil_r.
Qed.

(** X10. A limit above the number of kept messages never comes into
    play: in quiet surroundings the loop writes every kept message and ends
    with the stream (it returns when the stream is closed and waits when it
    stays open). *)
Theorem short_stream_ends_before_limit (req : Request) (env : nat -> Tick) (i : nat)
    (sent : Z) (msgs : list Message) (e : StreamEnd)
    (Hquiet : quiet env i (S (length msgs)))
    (Hshort : sent + Z.of_nat (length (kept req msgs)) < Limit req) :
  serve req env i sent msgs e =
    (written (kept req msgs), match e with Closed => EndOfStream | Open => Waiting end).
Proof.
  assert (Hq : quiet env i (length msgs)) by (intros j Hj; apply Hquiet; lia).
  destruct (Hquiet (length msgs) ltac:(lia)) as [Hc _].
  rewrite <- (app_nil_r msgs) at 1.
  rewrite serve_quiet_prefix by (done || by right).
  rewrite serve_drained by done. by rewrite app_nil_r.
Qed.

(** X11. Of the request, the loop itself reads the limit and nothing
    else: name, instance, since, follow, pattern and invert reach only the
    collaborator's filter. Two requests with the same limit that the filter
    treats alike give the same run. *)
Theorem loop_reads_only_the_limit (req req' : Request)
    (Hlimit : Limit req = Limit req')
    (Hfilter : ∀ m, Filter req m = Filter req' m) :
  ∀ (env : nat -> Tick) (i : nat) (sent : Z) (msgs : list Message) (e : StreamEnd),
    serve req env i sent msgs e = serve req' env i sent msgs e.
Proof.
  assert (Hturn : ∀ t sent sel, iteration req t sent sel = iteration req' t sent sel).
  { intros t sent sel. unfold iteration. destruct sel; try done.
    by rewrite Hfilter, Hlimit. }
  intros env i sent msgs. revert i sent.
  induction msgs as [|msg msgs IH]; intros i sent e; cbn [serve].
  - by rewrite Hturn.
  - rewrite Hturn. destruct (iteration req' _ _ _) as [calls [sent'|x]]; [|done].
    by rewrite IH.
Qed.

End LoopRuns.

(** * Further properties of the handler *)

Section HandlerStages.

Context {decoders : Decoders} {httpUtils : HttpUtils} {requestor : Requestor}.

Lemma writerCalls_OnWriter (calls : list WriterCall) (tail : list Effect) :
  writerCalls (map OnWriter calls ++ tail) = (calls ++ writerCalls tail)%list.
Proof.
  unfold writerCalls. induction calls as [|c calls IH]; [done|].
  simpl. f_equal. exact IH.
Qed.

Lemma queries_OnWriter (calls : list WriterCall) (tail : list Effect) :
  queries (map OnWriter calls ++ tail) = queries tail.
Proof. unfold queries. induction calls as [|c calls IH]; [done|exact IH]. Qed.

Lemma cancels_OnWriter (calls : list WriterCall) (tail : list Effect) :
  cancels (map OnWriter calls ++ tail) = cancels tail.
Proof. unfold cancels. induction calls as [|c calls IH]; [done|exact IH]. Qed.

Lemma deferred_returns (x : Exit) :
  x ≠ Waiting → deferred x = [CancelQuery; CloseBody].
Proof. by destruct x. Qed.

(** X12. The status line of every response is decided by how far the
    handler got: 404 on a writer that cannot stream, whatever the request;
    else 422 when parsing fails; else, when the query fails, whatever
    [WriteError] commits for 500; else 200, committed before the first
    message and not changed by anything that happens in the loop. *)
Theorem status_follows_the_stage (env : nat -> Tick) (w : ResponseWriter) (r : HttpRequest) :
  committedStatus (writerCalls (NewLogHandlerFunc env w r).1) =
    if negb (canStream w) then Some StatusNotFound
    else match parseRequest r with
         | (_, Some _) => Some StatusUnprocessableEntity
         | (q, None) =>
             match Query q with
             | (_, Some _) =>
                 committedStatus
                   (WriteError StatusInternalServerError "function log request failed")
             | (_, None) => Some StatusOK
             end
         end.
Proof.
  unfold NewLogHandlerFunc, canStream.
  destruct (isCloseNotifier w), (isFlusher w); cbn [negb andb]; try reflexivity.
  destruct (parseRequest r) as [q [err|]]; [reflexivity|].
  destruct (Query q) as [stream [err|]].
  - cbn [fst]. change (QueryCall q :: ?l) with ([QueryCall q] ++ l)%list.
    unfold writerCalls at 1. rewrite omap_app. fold (writerCalls).
    cbn [omap list_omap app].
    change (list_omap ?f ?l) with (writerCalls l).
    rewrite writerCalls_OnWriter. cbn. by rewrite app_nil_r.
  - destruct (match stream with
              | Some s => serve q env 0 0 (messages s) (ending s)
              | None => ([], NilStream)
              end) as [calls x].
    reflexivity.
Qed.

(** X13. The handler calls [Query] at most once, first of all its
    effects, with the request it parsed, and only on a writer that can
    stream; it never retries. When it has called [Query] and returns, the
    deferred cancel runs once, after every call on the writer, followed by
    the closing of the body; a handler that has not queried, or that waits,
    never cancels. *)
Theorem query_once_then_cancel (env : nat -> Tick) (w : ResponseWriter) (r : HttpRequest) :
  let effects := (NewLogHandlerFunc env w r).1 in
  let x := (NewLogHandlerFunc env w r).2 in
  queries effects =
    (if canStream w
     then match parseRequest r with (q, None) => [q] | (_, Some _) => [] end
     else [])
  ∧ (∀ q, q ∈ queries effects → head effects = Some (QueryCall q))
  ∧ (queries effects ≠ [] → x ≠ Waiting →
       ∃ pre, effects = (pre ++ [CancelQuery; CloseBody])%list ∧ cancels pre = 0%nat)
  ∧ (queries effects = [] ∨ x = Waiting → cancels effects = 0%nat).
Proof.
  cbv zeta. unfold NewLogHandlerFunc, canStream.
  destruct (isCloseNotifier w), (isFlusher w); cbn [negb andb fst snd];
    try (by repeat split; [intros ? ?%elem_of_nil|]).
  destruct (parseRequest r) as [q [err|]].
  { cbn [fst snd]. rewrite queries_OnWriter, cancels_OnWriter.
    by repeat split; [intros ? ?%elem_of_nil|]. }
  destruct (Query q) as [stream [err|]]; cbn [fst snd].
  - change (queries (QueryCall q :: ?l)) with (q :: queries l).
    rewrite queries_OnWriter. cbn [queries omap list_omap].
    repeat split; try done.
    + by intros q' ->%list_elem_of_singleton.
    + intros _ _. eexists (QueryCall q :: map OnWriter _). split; [reflexivity|].
      change (cancels (QueryCall q :: ?l)) with (cancels l).
      rewrite <- (app_nil_r (map OnWriter _)). by rewrite cancels_OnWriter.
    + by intros [?|?].
  - destruct (match stream with
              | Some s => serve q env 0 0 (messages s) (ending s)
              | None => ([], NilStream)
              end) as [calls x].
    cbn [fst snd].
    change (queries (QueryCall q :: ?l)) with (q :: queries l).
    change (cancels (QueryCall q :: ?l)) with (cancels l).
    rewrite queries_OnWriter, cancels_OnWriter.
    assert (Hnone : queries (deferred x) = []) by (by destruct x).
    rewrite Hnone.
    repeat split; try done.
    + by intros q' ->%list_elem_of_singleton.
    + intros _ Hx. rewrite deferred_returns by done.
      eexists (QueryCall q :: map OnWriter _). split; [reflexivity|].
      change (cancels (QueryCall q :: ?l)) with (cancels l).
      rewrite <- (app_nil_r (map OnWriter _)). by rewrite cancels_OnWriter.
    + by intros [?| ->].
Qed.

(** X14. The method is no gate: on a writer that can stream, a request
    whose method is neither GET nor POST is not refused. It is parsed to
    the zero [Request], whatever its query string and its body hold, and
    that is what [Query] is called with. *)
Theorem other_methods_query_everything (env : nat -> Tick) (w : ResponseWriter)
    (r : HttpRequest)
    (Hget : Method r ≠ MethodGet)
    (Hpost : Method r ≠ MethodPost)
    (Hw : canStream w = true) :
  parseRequest r = (zeroRequest, None)
  ∧ queries (NewLogHandlerFunc env w r).1 = [zeroRequest]
  ∧ (NewLogHandlerFunc env w r).2 ≠ ParseFailed.
Proof.
  assert (Hparse : parseRequest r = (zeroRequest, None)).
  { unfold parseRequest. by rewrite !bool_decide_eq_false_2. }
  split; [done|].
  unfold canStream in Hw. apply andb_true_iff in Hw as [Hcn Hfl].
  unfold NewLogHandlerFunc. rewrite Hcn, Hfl, Hparse. cbn [negb].
  destruct (Query zeroRequest) as [stream [err|]]; cbn [fst snd].
  - change (queries (QueryCall ?q :: ?l)) with (q :: queries l).
    by rewrite queries_OnWriter.
  - destruct (match stream with
              | Some s => serve zeroRequest env 0 0 (messages s) (ending s)
              | None => ([], NilStream)
              end) as [calls x] eqn:Hrun.
    cbn [fst snd].
    change (queries (QueryCall ?q :: ?l)) with (q :: queries l).
    rewrite queries_OnWriter.
    split; [by destruct x|].
    intros ->. destruct stream as [s|]; [|by simplify_eq].
    pose proof (serve_exits zeroRequest env 0 0 (messages s) (ending s)) as Hfive.
    rewrite Hrun in Hfive. cbn [snd] in Hfive.
    repeat (apply elem_of_cons in Hfive as [Hfive|Hfive]; [done|]).
    by apply elem_of_nil in Hfive.
Qed.

(** X15. When [Query] returns a nil channel and no error, the handler
    does not enter the loop (where it could only wait for the client to
    leave): it sends the stream headers with status 200 and returns at
    once, with an empty body, whatever the surroundings. *)
Theorem nil_channel_gives_empty_body (env : nat -> Tick) (w : ResponseWriter)
    (r : HttpRequest) (q : Request)
    (Hw : canStream w = true)
    (Hparse : parseRequest r = (q, None))
    (Hnil : Query q = (None, None)) :
  NewLogHandlerFunc env w r =
    ((QueryCall q :: map OnWriter streamHeaders ++ [CancelQuery; CloseBody])%list, NilStream).
Proof.
  unfold canStream in Hw. apply andb_true_iff in Hw as [Hcn Hfl].
  unfold NewLogHandlerFunc. by rewrite Hcn, Hfl, Hparse, Hnil.
Qed.

(** X16. When [Query] fails, the handler hands status 500 and its message
    to [WriteError] and returns: it sends no stream headers, reads nothing
    from a channel that came with the error, and cancels the query context
    on its way out. The client gets 500 as soon as [WriteError] commits the
    status it is given. *)
Theorem query_failure_writes_only_the_error (env : nat -> Tick) (w : ResponseWriter)
    (r : HttpRequest) (q : Request) (stream : option Stream) (err : error)
    (Hw : canStream w = true)
    (Hparse : parseRequest r = (q, None))
    (Hquery : Query q = (stream, Some err)) :
  NewLogHandlerFunc env w r =
    ((QueryCall q
        :: map OnWriter (WriteError StatusInternalServerError "function log request failed")
        ++ [CancelQuery; CloseBody])%list, QueryFailed)
  ∧ (committedStatus (WriteError StatusInternalServerError "function log request failed")
       = Some StatusInternalServerError →
     committedStatus (writerCalls (NewLogHandlerFunc env w r).1)
       = Some StatusInternalServerError).
Proof.
  unfold canStream in Hw. apply andb_true_iff in Hw as [Hcn Hfl].
  assert (Hrun : NewLogHandlerFunc env w r =
            ((QueryCall q
                :: map OnWriter
                     (WriteError StatusInternalServerError "function log request failed")
                ++ [CancelQuery; CloseBody])%list, QueryFailed)).
  { unfold NewLogHandlerFunc. by rewrite Hcn, Hfl, Hparse, Hquery. }
  split; [done|]. intros Hstatus. rewrite Hrun. cbn [fst].
  change (writerCalls (QueryCall q :: ?l)) with (writerCalls l).
  rewrite writerCalls_OnWriter. cbn. by rewrite app_nil_r.
Qed.

(** X17. From request to response: on a writer that can stream, for a
    request parsed to a query with a limit [k > 0] and a stream whose first
    stretch holds at least [k] kept messages and is delivered undisturbed,
    the handler calls [Query] with the parsed query, sends the stream
    headers, writes the first [k] kept messages with their flushes, cancels
    the query and returns. *)
Theorem limited_request_end_to_end (env : nat -> Tick) (w : ResponseWriter)
    (r : HttpRequest) (q : Request) (s : Stream) (msgs rest : list Message)
    (Hw : canStream w = true)
    (Hparse : parseRequest r = (q, None))
    (Hquery : Query q = (Some s, None))
    (Hmsgs : messages s = (msgs ++ rest)%list)
    (Hpos : 0 < Limit q)
    (Hkept : Limit q ≤ Z.of_nat (length (kept q msgs)))
    (Hquiet : quiet env 0 (length msgs)) :
  NewLogHandlerFunc env w r =
    ((QueryCall q
        :: map OnWriter (streamHeaders ++ written (take (Z.to_nat (Limit q)) (kept q msgs)))
        ++ [CancelQuery; CloseBody])%list, LimitReached).
Proof.
  unfold canStream in Hw. apply andb_true_iff in Hw as [Hcn Hfl].
  rewrite (handler_streams env w r q s) by done.
  rewrite Hmsgs, (serve_until_limit msgs q env 0 0 rest (ending s)) by (done || lia).
  by rewrite Z.sub_0_r.
Qed.

End HandlerStages.

(** * The statements on sample requests and streams *)

Section Examples.

#[local] Existing Instance Sample.decoders.
#[local] Existing Instance Sample.httpUtils.
#[local] Existing Instance Sample.requestor.

Import Sample.

(** Limit 2, three kept messages and more to come on an open stream:
    the first two are written. *)
Lemma limit_writes_first_k_witness :
  let req := limited 2 in
  let msgs := [message "a"; message "b"; message "c"] in
  (0 < Limit req ∧ Limit req ≤ Z.of_nat (length (kept req msgs))
   ∧ quiet still 0 (length msgs))
  ∧ serve req still 0 0 (msgs ++ [message "d"]) Open =
      (written [message "a"; message "b"], LimitReached).
Proof.
  cbv zeta.
  assert (Hpos : 0 < Limit (limited 2)) by reflexivity.
  assert (Hkept : Limit (limited 2)
                  ≤ Z.of_nat (length (kept (limited 2)
                                        [message "a"; message "b"; message "c"])))
    by (vm_compute; discriminate).
  assert (Hquiet : quiet still 0 (length [message "a"; message "b"; message "c"]))
    by (intros j Hj; split; reflexivity).
  split; [done|].
  exact (proj1 (limit_writes_first_k (limited 2) still
                  [message "a"; message "b"; message "c"] [message "d"] Open
                  Hpos Hkept Hquiet)).
Defined.

(** C1 as stated fails: with limit 1 and two kept messages in the
    stream, the loop writes no message of the stream when the first
    [Encode] fails (it writes the fallback line and returns), and none
    either when the client has gone before the first message. *)
Lemma limit_writes_first_k_counterexample :
  let req := limited 1 in
  let msgs := [message "a"; message "b"] in
  (0 < Limit req ∧ Limit req ≤ Z.of_nat (length (kept req msgs)))
  ∧ serve req (failing 0) 0 0 msgs Closed =
      ([Encode (message "a") false; Encode fallbackMessage true], SerializeFault)
  ∧ serve req gone 0 0 msgs Closed = ([], ClientGone).
Proof.
  cbv zeta. split; [split; [reflexivity | vm_compute; discriminate]|].
  split; reflexivity.
Qed.

(** The filter of the sample requestor rejects the text "a". *)
Lemma rejected_message_is_skipped_witness :
  let req := setPattern (Some "a") zeroRequest in
  Filter req (message "a") = false
  ∧ iteration req (still 0%nat) 0 (Received (message "a")) = ([], Continue 0)
  ∧ serve req still 0 0 [message "a"; message "b"] Closed =
      serve req still 1 0 [message "b"] Closed.
Proof.
  cbv zeta.
  assert (Hrejected : Filter (setPattern (Some "a") zeroRequest) (message "a") = false)
    by reflexivity.
  pose proof (rejected_message_is_skipped (setPattern (Some "a") zeroRequest)
                (still 0%nat) 0 (message "a") Hrejected) as [Hturn Hloop].
  split; [done|]. split; [exact Hturn|].
  exact (Hloop still 0%nat [message "b"] Closed eq_refl eq_refl).
Defined.

(** No limit, a quiet run over a closed stream: the two kept messages
    are written. *)
Lemma unlimited_writes_every_kept_witness :
  let req := setPattern (Some "b") zeroRequest in
  let msgs := [message "a"; message "b"; message "c"] in
  Limit req ≤ 0
  ∧ serve req still 0 0 msgs Closed = (written [message "a"; message "c"], EndOfStream).
Proof.
  cbv zeta.
  assert (Hlim : Limit (setPattern (Some "b") zeroRequest) ≤ 0) by (vm_compute; discriminate).
  split; [done|].
  refine (proj2 (proj2 (unlimited_writes_every_kept (setPattern (Some "b") zeroRequest)
                          still 0 0 [message "a"; message "b"; message "c"] Closed Hlim)) _).
  intros j Hj. split; reflexivity.
Defined.

(** C3 as stated fails: the stream yields "b", the client stays and the
    stream closes, yet "b" is not written, because the filter rejects
    it. *)
Lemma unlimited_writes_every_kept_counterexample :
  let req := setPattern (Some "b") zeroRequest in
  let msgs := [message "a"; message "b"; message "c"] in
  Limit req ≤ 0
  ∧ serve req still 0 0 msgs Closed = (written [message "a"; message "c"], EndOfStream)
  ∧ (serve req still 0 0 msgs Closed).1 ≠ written msgs.
Proof.
  cbv zeta. split; [vm_compute; discriminate|]. split; [reflexivity|].
  vm_compute. discriminate.
Qed.

(** The encoder fails at the second turn. *)
Lemma serialization_fault_writes_one_fallback_witness :
  (closeNotify (failing 1 1%nat) = false
   ∧ Filter zeroRequest (message "b") = true
   ∧ encodeErr (failing 1 1%nat) = true)
  ∧ serve zeroRequest (failing 1) 0 0 ([message "a"] ++ message "b" :: [message "c"]) Closed =
      ([Encode (message "a") true; Flush;
        Encode (message "b") false; Encode fallbackMessage true],
       SerializeFault).
Proof.
  split; [by repeat split|].
  refine (proj2 (proj2 (proj2
            (serialization_fault_writes_one_fallback zeroRequest (failing 1) 1 0
               (message "b") [message "c"] Closed eq_refl eq_refl eq_refl)))
            [message "a"] 0%nat 0 eq_refl _ _).
  - intros j Hj. split; [reflexivity|]. destruct j; [reflexivity|simpl in Hj; lia].
  - left. vm_compute. discriminate.
Defined.


(** A pattern given twice, the second time empty: set and empty. *)
Lemma pattern_set_iff_present_witness :
  let r := get [("pattern", "^200.*"); ("pattern", "")] in
  (Method r = MethodGet ∧ (parseRequest r).2 = None)
  ∧ Pattern (parseRequest r).1 = Some "".
Proof.
  cbv zeta. split; [done|].
  exact (proj1 (pattern_set_iff_present
                  (get [("pattern", "^200.*"); ("pattern", "")]) _ eq_refl eq_refl)).
Defined.

(** C6 as stated fails: the pattern key occurs, yet the query that comes
    back has no pattern, because the parser has returned at the limit that
    is no number, or at the since that is no timestamp, before it reads
    the pattern. *)
Lemma pattern_set_iff_present_counterexample :
  let r := get [("limit", "abc"); ("pattern", "x")] in
  let r' := get [("since", "yesterday"); ("pattern", "")] in
  ("pattern" ∈ (RawQuery r).*1
   ∧ parseRequest r = (zeroRequest, Some (NumError "Atoi" "abc" ErrSyntax))
   ∧ Pattern (parseRequest r).1 = None)
  ∧ ("pattern" ∈ (RawQuery r').*1
     ∧ (parseRequest r').2 = Some (ParseError RFC3339 "yesterday")
     ∧ Pattern (parseRequest r').1 = None).
Proof.
  cbv zeta. split; (split; [simpl; repeat constructor|split; reflexivity]).
Qed.

(** A limit that is not a number, on a writer that can stream. *)
Lemma parse_failure_is_unprocessable_witness :
  let r := get [("limit", "abc")] in
  (parseRequest r).2 ≠ None
  ∧ committedStatus (writerCalls (NewLogHandlerFunc still streaming r).1)
    = Some StatusUnprocessableEntity
  ∧ Forall (λ e, isQueryCall e = false) (NewLogHandlerFunc still streaming r).1.
Proof.
  cbv zeta.
  assert (Hfail : (parseRequest (get [("limit", "abc")])).2 ≠ None) by discriminate.
  pose proof (parse_failure_is_unprocessable still streaming (get [("limit", "abc")]) Hfail)
    as (Hquery & Hstatus & _).
  split; [done|]. split; [|exact Hquery].
  exact (proj1 (Hstatus eq_refl eq_refl)).
Defined.

(** C7 as stated fails: the same request on a recorder that is no close
    notifier is answered 404. *)
Lemma parse_failure_is_unprocessable_counterexample :
  let r := get [("limit", "abc")] in
  (parseRequest r).2 = Some (NumError "Atoi" "abc" ErrSyntax)
  ∧ committedStatus (writerCalls (NewLogHandlerFunc still recorder r).1)
    = Some StatusNotFound
  ∧ StatusNotFound ≠ StatusUnprocessableEntity.
Proof. cbv zeta. split; [reflexivity|]. split; [reflexivity|discriminate]. Qed.

(** A limit of 5 and a since that is no timestamp. *)
Lemma since_error_iff_malformed_witness :
  let r := get [("limit", "5"); ("since", "yesterday")] in
  (Method r = MethodGet ∧ limitPasses r)
  ∧ (parseRequest r).2 = Some (ParseError RFC3339 "yesterday").
Proof.
  cbv zeta.
  assert (Hlimit : limitPasses (get [("limit", "5"); ("since", "yesterday")]))
    by (right; reflexivity).
  pose proof (since_error_iff_malformed
                (get [("limit", "5"); ("since", "yesterday")]) _ _ eq_refl Hlimit eq_refl)
    as (Hiff & Herr & _).
  split; [done|].
  apply Herr, Hiff. split; [discriminate|reflexivity].
Defined.

(** C8 as stated fails: with a limit that is no number the parser
    returns an error although the since value is absent; and with a
    malformed since next to it, the error is the one of the limit and
    [time.Parse] has not run. *)
Lemma since_error_iff_malformed_counterexample :
  let r := get [("limit", "abc")] in
  let r' := get [("limit", "abc"); ("since", "yesterday")] in
  (getValue (URLQuery r) "since" = ""
   ∧ parseRequest r = (zeroRequest, Some (NumError "Atoi" "abc" ErrSyntax)))
  ∧ (getValue (URLQuery r') "since" = "yesterday"
     ∧ parseRFC3339 "yesterday" = None
     ∧ parseRequest r' = (zeroRequest, Some (NumError "Atoi" "abc" ErrSyntax))).
Proof. cbv zeta. repeat split; reflexivity. Qed.

(** The request of the specification: follow=notabool. *)
Lemma unparseable_flag_is_false_witness :
  let r := get [("follow", "notabool")] in
  (Method r = MethodGet ∧ (ParseBool (getValue (URLQuery r) "follow")).2 ≠ None)
  ∧ Follow (parseRequest r).1 = false
  ∧ (parseRequest r).2 = None.
Proof.
  cbv zeta.
  pose proof (unparseable_flag_is_false (get [("follow", "notabool")]) _ _ eq_refl eq_refl)
    as (Hfollow & _ & Hok).
  assert (Hbad : (ParseBool (getValue (URLQuery (get [("follow", "notabool")])) "follow")).2
                 ≠ None) by discriminate.
  split; [done|]. split; [exact (Hfollow Hbad)|].
  apply Hok; left; reflexivity.
Defined.

(** C9 as stated fails: follow=notabool next to a limit that is no
    number is not parsed without error. *)
Lemma unparseable_flag_is_false_counterexample :
  let r := get [("follow", "notabool"); ("limit", "abc")] in
  (ParseBool (getValue (URLQuery r) "follow")).2
    = Some (NumError "ParseBool" "notabool" ErrSyntax)
  ∧ (parseRequest r).2 = Some (NumError "Atoi" "abc" ErrSyntax).
Proof. cbv zeta. split; reflexivity. Qed.

(** A malformed since after a good limit; the pattern is not read. *)
Lemma malformed_since_stores_zero_time_witness :
  let r := get [("limit", "5"); ("since", "yesterday"); ("pattern", "x")] in
  (Method r = MethodGet ∧ limitPasses r
   ∧ getValue (URLQuery r) "since" ≠ ""
   ∧ parseRFC3339 (getValue (URLQuery r) "since") = None)
  ∧ (parseRequest r).2 = Some (ParseError RFC3339 "yesterday")
  ∧ Since (parseRequest r).1 = Some zeroTime.
Proof.
  cbv zeta.
  assert (Hlimit : limitPasses (get [("limit", "5"); ("since", "yesterday"); ("pattern", "x")]))
    by (right; reflexivity).
  assert (Hsince : getValue (URLQuery (get [("limit", "5"); ("since", "yesterday");
                                             ("pattern", "x")])) "since" ≠ "")
    by discriminate.
  pose proof (malformed_since_stores_zero_time
                (get [("limit", "5"); ("since", "yesterday"); ("pattern", "x")])
                _ _ eq_refl Hlimit Hsince eq_refl eq_refl) as (Herr & Hzero & _).
  split; [done|]. split; [exact Herr|exact Hzero].
Defined.

(** C10 as stated fails: a malformed since after a limit that is no
    number comes back with a non-nil error and [Since] unset. *)
Lemma malformed_since_stores_zero_time_counterexample :
  let r := get [("limit", "abc"); ("since", "yesterday")] in
  (getValue (URLQuery r) "since" = "yesterday" ∧ parseRFC3339 "yesterday" = None)
  ∧ (parseRequest r).2 = Some (NumError "Atoi" "abc" ErrSyntax)
  ∧ Since (parseRequest r).1 = None.
Proof. cbv zeta. repeat split; reflexivity. Qed.

End Examples.

(** * The further statements on sample requests and streams *)

Section ParserAndLoopExamples.

#[local] Existing Instance Sample.decoders.
#[local] Existing Instance Sample.httpUtils.
#[local] Existing Instance Sample.requestor.

Import Sample.

(** Two tracking parameters around a name. *)
Lemma unread_keys_are_ignored_witness :
  let r := get [("utm", "1"); ("name", "fn"); ("x", "y")] in
  Method r = MethodGet
  ∧ parseRequest (get [("name", "fn")]) = parseRequest r
  ∧ parseRequest r = (setName "fn" zeroRequest, None).
Proof.
  cbv zeta. split; [done|]. split; [|reflexivity].
  exact (proj1 (unread_keys_are_ignored
                  (get [("utm", "1"); ("name", "fn"); ("x", "y")]) eq_refl)).
Defined.

(** A limit of twenty digits: [Atoi] reports a range error and returns the
    largest [int]. *)
Lemma rejected_limit_stops_parsing_witness :
  let r := get [("name", "fn"); ("limit", "99999999999999999999");
                ("follow", "true"); ("pattern", "p")] in
  (Method r = MethodGet ∧ getValue (URLQuery r) "limit" ≠ "")
  ∧ parseRequest r =
      (setLimit maxInt (setName "fn" zeroRequest),
       Some (NumError "Atoi" "99999999999999999999" ErrRange)).
Proof.
  cbv zeta. split; [by split|].
  refine (rejected_limit_stops_parsing
            (get [("name", "fn"); ("limit", "99999999999999999999");
                  ("follow", "true"); ("pattern", "p")])
            maxInt (NumError "Atoi" "99999999999999999999" ErrRange) eq_refl _ eq_refl).
  discriminate.
Defined.

(** A request that fails on its limit still names the function. *)
Lemma get_result_name_and_errors_witness :
  let r := get [("name", "fn"); ("instance", "fn-1"); ("limit", "x")] in
  Method r = MethodGet
  ∧ Name (parseRequest r).1 = "fn"
  ∧ Instance (parseRequest r).1 = "fn-1".
Proof.
  cbv zeta. split; [done|].
  pose proof (get_result_name_and_errors
                (get [("name", "fn"); ("instance", "fn-1"); ("limit", "x")])
                _ _ eq_refl eq_refl) as (Hname & Hinstance & _).
  split; [exact Hname|exact Hinstance].
Defined.

(** follow=T is true, also next to a since that fails. *)
Lemma flags_true_iff_spelled_true_witness :
  let r := get [("follow", "T"); ("invert", "yes"); ("since", "yesterday")] in
  (Method r = MethodGet ∧ limitPasses r)
  ∧ Follow (parseRequest r).1 = true.
Proof.
  cbv zeta.
  assert (Hlimit : limitPasses (get [("follow", "T"); ("invert", "yes");
                                      ("since", "yesterday")])) by (left; reflexivity).
  split; [done|].
  pose proof (flags_true_iff_spelled_true
                (get [("follow", "T"); ("invert", "yes"); ("since", "yesterday")])
                _ _ eq_refl eq_refl) as [Hflags _].
  apply (proj1 (Hflags Hlimit)).
  unfold trueSpellings. repeat constructor.
Defined.

(** A since given a timestamp and then the empty value. *)
Lemma empty_value_is_absent_witness :
  let r := get [("since", "2019-02-16T09:10:06+00:00"); ("name", "fn"); ("since", "")] in
  (Method r = MethodGet ∧ "since" ∈ parameterKeys
   ∧ lastValue (RawQuery r) "since" = Some "")
  ∧ parseRequest (get [("name", "fn")]) = parseRequest r.
Proof.
  cbv zeta.
  assert (Hkey : "since" ∈ parameterKeys) by (unfold parameterKeys; repeat constructor).
  split; [done|].
  refine (empty_value_is_absent
            (get [("since", "2019-02-16T09:10:06+00:00"); ("name", "fn"); ("since", "")])
            "since" eq_refl Hkey _ eq_refl).
  discriminate.
Defined.

(** Limit 2 and an encoder that fails from the second turn on. *)
Lemma limit_is_never_exceeded_witness :
  let req := limited 2 in
  let msgs := [message "a"; message "b"; message "c"] in
  (0 < Limit req ∧ 0 < Limit req)
  ∧ 0 + Z.of_nat (flushes (serve req (failing 1) 0 0 msgs Closed).1) ≤ Limit req.
Proof.
  cbv zeta.
  assert (Hpos : 0 < Limit (limited 2)) by reflexivity.
  split; [done|].
  exact (proj1 (limit_is_never_exceeded (limited 2) (failing 1) 0 0
                  [message "a"; message "b"; message "c"] Closed Hpos Hpos)).
Defined.

(** The client leaves after the first message. *)
Lemma disconnect_halts_writes_witness :
  (quiet (Corner.leaving 1) 0 (length [message "a"])
   ∧ Limit zeroRequest ≤ 0
   ∧ closeNotify (Corner.leaving 1 (0 + length [message "a"])%nat) = true)
  ∧ serve zeroRequest (Corner.leaving 1) 0 0 ([message "a"] ++ [message "b"; message "c"]) Open
    = (written [message "a"], ClientGone).
Proof.
  assert (Hpre : quiet (Corner.leaving 1) 0 (length [message "a"])).
  { intros j Hj. destruct j; [by split|simpl in Hj; lia]. }
  assert (Hlim : Limit zeroRequest ≤ 0) by (vm_compute; discriminate).
  split; [done|].
  exact (disconnect_halts_writes zeroRequest (Corner.leaving 1) 0 0
           [message "a"] [message "b"; message "c"] Open Hpre (or_introl Hlim) eq_refl).
Defined.

(** Limit 5 on a closed stream of two messages. *)
Lemma short_stream_ends_before_limit_witness :
  let msgs := [message "a"; message "b"] in
  (quiet still 0 (S (length msgs))
   ∧ 0 + Z.of_nat (length (kept (limited 5) msgs)) < Limit (limited 5))
  ∧ serve (limited 5) still 0 0 msgs Closed = (written msgs, EndOfStream).
Proof.
  cbv zeta.
  assert (Hquiet : quiet still 0 (S (length [message "a"; message "b"])))
    by (intros j Hj; by split).
  assert (Hshort : 0 + Z.of_nat (length (kept (limited 5) [message "a"; message "b"]))
                   < Limit (limited 5)) by reflexivity.
  split; [done|].
  exact (short_stream_ends_before_limit (limited 5) still 0 0
           [message "a"; message "b"] Closed Hquiet Hshort).
Defined.

(** The sample filter looks at the pattern only: follow and name do not
    change the run. *)
Lemma loop_reads_only_the_limit_witness :
  let req := limited 1 in
  let req' := setFollow true (setName "fn" (limited 1)) in
  (Limit req = Limit req' ∧ ∀ m, Filter req m = Filter req' m)
  ∧ serve req still 0 0 [message "a"; message "b"] Open
    = serve req' still 0 0 [message "a"; message "b"] Open.
Proof.
  cbv zeta.
  assert (Hfilter : ∀ m, Filter (limited 1) m
                         = Filter (setFollow true (setName "fn" (limited 1))) m)
    by (intros m; reflexivity).
  split; [by split|].
  exact (loop_reads_only_the_limit (limited 1) (setFollow true (setName "fn" (limited 1)))
           eq_refl Hfilter still 0%nat 0 [message "a"; message "b"] Open).
Defined.

(** The sample requestor answers with "a", "b", "c": limit=2 gets the
    first two. *)
Lemma limited_request_end_to_end_witness :
  let r := get [("limit", "2")] in
  (canStream streaming = true ∧ parseRequest r = (limited 2, None))
  ∧ NewLogHandlerFunc still streaming r =
      ([QueryCall (limited 2);
        OnWriter (HeaderSet "Transfer-Encoding" "chunked");
        OnWriter (HeaderSet "Content-Type" "application/x-ndjson");
        OnWriter (WriteHeader StatusOK);
        OnWriter Flush;
        OnWriter (Encode (message "a") true); OnWriter Flush;
        OnWriter (Encode (message "b") true); OnWriter Flush;
        CancelQuery; CloseBody], LimitReached).
Proof.
  cbv zeta. split; [by split|].
  refine (limited_request_end_to_end still streaming (get [("limit", "2")]) (limited 2)
            (mkStream [message "a"; message "b"; message "c"] Closed)
            [message "a"; message "b"] [message "c"]
            eq_refl eq_refl eq_refl eq_refl eq_refl _ _).
  - vm_compute. discriminate.
  - intros j Hj. by split.
Defined.

End ParserAndLoopExamples.

Section HandlerExamples.

#[local] Existing Instance Sample.decoders.
#[local] Existing Instance Sample.httpUtils.
#[local] Existing Instance Corner.requestor.

Import Sample.

(** A PUT with a limit that is no number and a body that is no JSON. *)
Lemma other_methods_query_everything_witness :
  let r := Corner.put [("limit", "abc"); ("name", "fn")] "{" in
  (Method r ≠ MethodGet ∧ Method r ≠ MethodPost ∧ canStream streaming = true)
  ∧ queries (NewLogHandlerFunc still streaming r).1 = [zeroRequest].
Proof.
  cbv zeta.
  assert (Hget : Method (Corner.put [("limit", "abc"); ("name", "fn")] "{") ≠ MethodGet)
    by discriminate.
  assert (Hpost : Method (Corner.put [("limit", "abc"); ("name", "fn")] "{") ≠ MethodPost)
    by discriminate.
  split; [done|].
  exact (proj1 (proj2 (other_methods_query_everything still streaming
                         (Corner.put [("limit", "abc"); ("name", "fn")] "{")
                         Hget Hpost eq_refl))).
Defined.

(** The sample requestor gives a nil channel for the name "nil"; the
    client is gone from the start and it does not matter. *)
Lemma nil_channel_gives_empty_body_witness :
  let r := get [("name", "nil")] in
  (canStream streaming = true
   ∧ parseRequest r = (setName "nil" zeroRequest, None)
   ∧ Query (setName "nil" zeroRequest) = (None, None))
  ∧ NewLogHandlerFunc gone streaming r =
      ((QueryCall (setName "nil" zeroRequest) :: map OnWriter streamHeaders
          ++ [CancelQuery; CloseBody])%list, NilStream).
Proof.
  cbv zeta. split; [by repeat split|].
  exact (nil_channel_gives_empty_body gone streaming (get [("name", "nil")])
           (setName "nil" zeroRequest) eq_refl eq_refl eq_refl).
Defined.

(** The sample requestor fails for the name "down"; the sample
    [WriteError] writes its status first. *)
Lemma query_failure_writes_only_the_error_witness :
  let r := get [("name", "down")] in
  (canStream streaming = true
   ∧ parseRequest r = (setName "down" zeroRequest, None)
   ∧ Query (setName "down" zeroRequest)
     = (None, Some (DecodeError "log backend unavailable")))
  ∧ committedStatus (writerCalls (NewLogHandlerFunc still streaming r).1)
    = Some StatusInternalServerError.
Proof.
  cbv zeta. split; [by repeat split|].
  exact (proj2 (query_failure_writes_only_the_error still streaming (get [("name", "down")])
                  (setName "down" zeroRequest) None
                  (DecodeError "log backend unavailable") eq_refl eq_refl eq_refl)
           eq_refl).
Defined.

End HandlerExamples.
